(** * Automated billing system: the detection aggregation pipeline

    A shallow embedding of [backend/app_new17.py]: the frame queue, the
    [Detection] constructor, the drawing pass of [pre_callback], the two
    socket handlers and the body of the [emit_detections] loop, followed by
    the properties of the aggregation and broadcast logic.

    Conventions of the embedding:
    - a Python [int] is a [Z], a Python [float] is a binary64 [float]
      (Rocq's primitive floats), a [str] is a [string];
    - a [dict] is an association list in insertion order, as iteration over
      a Python dict observes it;
    - a call that may raise returns a [result]; a loop that mutates a global
      before it raises returns the mutated global next to the exception. *)

From Stdlib Require Import ZArith List String Bool Lia Permutation.
From Stdlib Require Import Floats.
Import ListNotations.

Local Open Scope string_scope.
Local Open Scope list_scope.
Local Open Scope Z_scope.

(** ** The fragment of Python the program relies on *)

Module Py.

(** The exceptions the modelled statements can raise. [ConversionError]
    stands for whatever the camera library raises from
    [convert_inference_coords], [Cv2Error] for OpenCV's [cv2.error]. *)
Inductive exn : Type :=
| IndexError
| ValueError
| OverflowError
| AttributeError
| ConversionError
| Cv2Error.

Inductive result (A : Type) : Type :=
| Ok (a : A)
| Raise (e : exn).
Arguments Ok {A} a.
Arguments Raise {A} e.

Definition bind {A B} (r : result A) (k : A -> result B) : result B :=
  match r with
  | Ok a => k a
  | Raise e => Raise e
  end.

(** Values that [json.load] produces. *)
#[local] Unset Elimination Schemes.
Inductive value : Type :=
| VNone
| VBool (b : bool)
| VInt (z : Z)
| VFloat (f : float)
| VStr (s : string)
| VList (l : list value)
| VDict (kv : list (string * value)).
#[local] Set Elimination Schemes.

(** *** Dictionaries keyed by strings, in insertion order *)

Definition dict (V : Type) : Type := list (string * V).

Fixpoint dict_get {V} (d : dict V) (k : string) : option V :=
  match d with
  | [] => None
  | (k', v) :: rest => if String.eqb k k' then Some v else dict_get rest k
  end.

(** [k in d] *)
Definition dict_mem {V} (d : dict V) (k : string) : bool :=
  match dict_get d k with Some _ => true | None => false end.

(** [d[k] = v]: an existing key keeps its position, a new key goes last. *)
Fixpoint dict_set {V} (d : dict V) (k : string) (v : V) : dict V :=
  match d with
  | [] => [(k, v)]
  | (k', v') :: rest =>
      if String.eqb k k' then (k', v) :: rest
      else (k', v') :: dict_set rest k v
  end.

Definition keys {V} (d : dict V) : list string := map fst d.

(** [obj.get(k, default)]: only a dict has the method. *)
Definition get (obj : value) (k : string) (default : value) : result value :=
  match obj with
  | VDict kv =>
      match dict_get kv k with
      | Some v => Ok v
      | None => Ok default
      end
  | _ => Raise AttributeError
  end.

(** [l[i]] on a list: a negative index counts from the end. *)
Definition index {A} (l : list A) (i : Z) : result A :=
  let n := Z.of_nat (List.length l) in
  let j := if i <? 0 then i + n else i in
  if (0 <=? j) && (j <? n) then
    match nth_error l (Z.to_nat j) with
    | Some x => Ok x
    | None => Raise IndexError
    end
  else Raise IndexError.

(** *** Numbers *)

Inductive num : Type :=
| NInt (z : Z)
| NFloat (f : float).

(** The float of a small integer constant (exact below 2^53; the program
    only mixes floats with the constants 0, 480 and 640). *)
Definition float_of_Z (z : Z) : float :=
  if z <? 0 then PrimFloat.opp (PrimFloat.of_uint63 (Uint63.of_Z (- z)))
  else PrimFloat.of_uint63 (Uint63.of_Z z).

(** [a < b] *)
Definition lt (a b : num) : bool :=
  match a, b with
  | NInt x, NInt y => x <? y
  | NInt x, NFloat y => PrimFloat.ltb (float_of_Z x) y
  | NFloat x, NInt y => PrimFloat.ltb x (float_of_Z y)
  | NFloat x, NFloat y => PrimFloat.ltb x y
  end.

(** [min(a, b)] and [max(a, b)]: the builtin keeps its first argument
    unless the second is strictly better. *)
Definition min (a b : num) : num := if lt b a then b else a.
Definition max (a b : num) : num := if lt a b then b else a.

(** [a * b] *)
Definition mul (a b : num) : num :=
  match a, b with
  | NInt x, NInt y => NInt (x * y)
  | NInt x, NFloat y => NFloat (PrimFloat.mul (float_of_Z x) y)
  | NFloat x, NInt y => NFloat (PrimFloat.mul x (float_of_Z y))
  | NFloat x, NFloat y => NFloat (PrimFloat.mul x y)
  end.

(** [int(f)] on a float truncates toward zero and rejects nan and inf. *)
Definition int_of_float (f : float) : result Z :=
  match Prim2SF f with
  | S754_nan => Raise ValueError
  | S754_infinity _ => Raise OverflowError
  | S754_zero _ => Ok 0
  | S754_finite s m e =>
      let mag := if 0 <=? e then Zpos m * 2 ^ e else Zpos m / 2 ^ (- e) in
      Ok (if s then - mag else mag)
  end.

(** [int(x)] *)
Definition int (x : num) : result Z :=
  match x with
  | NInt z => Ok z
  | NFloat f => int_of_float f
  end.

End Py.

Import Py.

Notation "x <- c ;; k" := (Py.bind c (fun x => k))
  (at level 61, c at next level, right associativity).


(** ** The frame queue: [Queue(maxsize=10)] *)

Module Queue.

Record t (A : Type) : Type := mk { maxsize : Z; items : list A }.
Arguments mk {A} maxsize items.
Arguments maxsize {A} _.
Arguments items {A} _.

Definition qsize {A} (q : t A) : Z := Z.of_nat (List.length (items q)).

(** [Queue(maxsize=n)] *)
Definition new {A} (n : Z) : t A := mk n [].

(** [q.full()] is [0 < maxsize <= qsize]; [q.empty()] is [not qsize]. *)
Definition full {A} (q : t A) : bool := (0 <? maxsize q) && (maxsize q <=? qsize q).
Definition empty {A} (q : t A) : bool := qsize q =? 0.

(** [q.put(x)] appends at the tail; on a full queue the caller blocks, which
    is [None] here. *)
Definition put {A} (q : t A) (x : A) : option (t A) :=
  if full q then None else Some (mk (maxsize q) (items q ++ [x])).

(** [q.get()] removes the head; on an empty queue the caller blocks. *)
Definition get {A} (q : t A) : option (A * t A) :=
  match items q with
  | [] => None
  | x :: rest => Some (x, mk (maxsize q) rest)
  end.

End Queue.

(** ** The program *)

(** [frame_queue = Queue(maxsize=10)] *)
Definition frame_queue {A} : Queue.t A := Queue.new 10.

(** The guarded push that ends [pre_callback]:
    [if not frame_queue.full(): frame_queue.put(m.array.copy())]. *)
Definition push_frame {A} (q : Queue.t A) (frame : A) : option (Queue.t A) :=
  if negb (Queue.full q) then Queue.put q frame else Some q.

(** The poll of [generate_frames]:
    [if not frame_queue.empty(): frame = frame_queue.get()], else sleep,
    as one consumer runs it when nothing else takes a frame between its
    check and its [get]. The interleaving of several consumers is
    [stream_step] below. *)
Definition poll_frame {A} (q : Queue.t A) : option (option A * Queue.t A) :=
  if negb (Queue.empty q) then
    match Queue.get q with
    | Some (frame, q') => Some (Some frame, q')
    | None => None
    end
  else Some (None, q).

(** Pushing a run of frames, one [pre_callback] after the other. *)
Fixpoint push_frames {A} (q : Queue.t A) (frames : list A) : option (Queue.t A) :=
  match frames with
  | [] => Some q
  | f :: rest =>
      match push_frame q f with
      | Some q' => push_frames q' rest
      | None => None
      end
  end.

(** Draining with [poll_frame] until the queue reports empty; [fuel] bounds
    the number of polls. *)
Fixpoint drain {A} (fuel : nat) (q : Queue.t A) : option (list A) :=
  match fuel with
  | O => Some []
  | S fuel' =>
      match poll_frame q with
      | Some (Some frame, q') =>
          match drain fuel' q' with
          | Some rest => Some (frame :: rest)
          | None => None
          end
      | Some (None, _) => Some []
      | None => None
      end
  end.

(** *** [class Detection] *)

Record Detection : Type := mkDetection {
  category : Py.num;
  conf : float;
  box : list Z
}.

(** [640 if i % 2 == 0 else 480] *)
Definition frame_bound (i : nat) : Z := if Nat.even i then 640 else 480.

(** [[int(max(0, min(val, 640 if i % 2 == 0 else 480)))
      for i, val in enumerate(self.box)]], from index [i] on. *)
Fixpoint clamp_box (i : nat) (vals : list Py.num) : result (list Z) :=
  match vals with
  | [] => Ok []
  | val :: rest =>
      z <- Py.int (Py.max (NInt 0) (Py.min val (NInt (frame_bound i)))) ;;
      zs <- clamp_box (S i) rest ;;
      Ok (z :: zs)
  end.

(** [[int(val * (640 if i % 2 == 0 else 480)) for i, val in enumerate(coords)]],
    from index [i] on. *)
Fixpoint scale_box (i : nat) (coords : list Py.num) : result (list Z) :=
  match coords with
  | [] => Ok []
  | val :: rest =>
      z <- Py.int (Py.mul val (NInt (frame_bound i))) ;;
      zs <- scale_box (S i) rest ;;
      Ok (z :: zs)
  end.

(** [Detection.__init__]. The camera library's
    [imx500.convert_inference_coords(coords, metadata, picam2)] is outside
    the repository: [converted] is what that call returned or raised. The
    [except Exception] clause covers the whole [try] body; an exception
    raised inside the handler itself leaves the constructor. *)
Definition Detection_init (converted : result (list Py.num))
    (coords : list Py.num) (category : Py.num) (conf : float) : result Detection :=
  match (b <- converted ;; clamp_box 0 b) with
  | Ok b => Ok (mkDetection category conf b)
  | Raise _ =>
      b <- scale_box 0 coords ;;
      Ok (mkDetection category conf b)
  end.

(** The first loop of [pre_callback]: one output of the network is the
    triple [(box, score, category)], here with what the conversion of [box]
    gives. A triple below [args.threshold] is filtered out; one whose
    constructor raises is reported and skipped. *)
Fixpoint pre_callback_detections (threshold : float)
    (np_outputs : list (list Py.num * float * Py.num * result (list Py.num)))
  : list Detection :=
  match np_outputs with
  | [] => []
  | (box, score, category, converted) :: rest =>
      if (threshold <=? score)%float then
        match Detection_init converted box category score with
        | Ok det => det :: pre_callback_detections threshold rest
        | Raise _ => pre_callback_detections threshold rest
        end
      else pre_callback_detections threshold rest
  end.

(** *** Labels *)

(** [get_labels()[int(det.category)]]; [labels] is the cached result of
    [get_labels()]. *)
Definition label_of (labels : list string) (det : Detection) : result string :=
  i <- Py.int (category det) ;;
  Py.index labels i.

(** *** The drawing pass of [pre_callback] *)

(** What the two OpenCV calls write onto [m.array]. The text is
    [name (conf:.2f)]; it is kept as the pair it is formatted from. *)
Inductive draw_op : Type :=
| putText (name : string) (score : float) (x y : Z)
| rectangle (x1 y1 x2 y2 : Z).

(** [for detection in detections: ...] over the mapped array. OpenCV is
    outside the repository: [cv2 op] is the exception the call raises on
    these arguments, if it raises (it does on a coordinate that does not fit
    a C int). The array is written in place, so what was drawn before an
    exception stays. *)
Fixpoint draw_detections (cv2 : draw_op -> option Py.exn) (labels : list string)
    (detections : list Detection) (array : list draw_op)
  : list draw_op * option Py.exn :=
  match detections with
  | [] => (array, None)
  | detection :: rest =>
      match box detection with
      | [x; y; w; h] =>
          match label_of labels detection with
          | Ok name =>
              let text := putText name (conf detection) (x + 5) (y + 15) in
              let rect := rectangle x y (x + w) (y + h) in
              match cv2 text with
              | Some e => (array, Some e)
              | None =>
                  match cv2 rect with
                  | Some e => (array ++ [text], Some e)
                  | None => draw_detections cv2 labels rest (array ++ [text; rect])
                  end
              end
          | Raise e => (array, Some e)
          end
      | _ => (array, Some ValueError)
      end
  end.

(** The [with MappedArray(request, "main") as m:] block: draw, then queue a
    copy of the frame unless the queue is full. [None] would be a blocked
    producer. *)
Definition pre_callback_draw (cv2 : draw_op -> option Py.exn) (labels : list string)
    (detections : list Detection) (array : list draw_op) (q : Queue.t (list draw_op))
  : option (Queue.t (list draw_op) * option Py.exn) :=
  match draw_detections cv2 labels detections array with
  | (array', None) =>
      match push_frame q array' with
      | Some q' => Some (q', None)
      | None => None
      end
  | (_, Some e) => Some (q, Some e)
  end.

(** *** Session state *)

(** One value of [detected_ingredients]:
    [{"quantity": ..., "last_update": ...}]. *)
Record ingredient : Type := mkIngredient {
  quantity : Z;
  last_update : float
}.

(** The globals [detection_active] and [detected_ingredients]. *)
Record globals : Type := mkGlobals {
  detection_active : bool;
  detected_ingredients : Py.dict ingredient
}.

(** Their values when the module is loaded. *)
Definition initial_globals : globals := mkGlobals false [].

Definition handle_start_detection (g : globals) : globals :=
  mkGlobals true [].

Definition handle_stop_detection (g : globals) : globals :=
  mkGlobals false (detected_ingredients g).

(** *** [emit_detections] *)

Definition weight_update_threshold : float := 2%float.

(** The body of [for det in current_detections] once the label is known. *)
Definition count_label (current_time : float) (d : Py.dict ingredient)
    (label : string) : Py.dict ingredient :=
  match Py.dict_get d label with
  | None => Py.dict_set d label (mkIngredient 1 current_time)
  | Some info =>
      if (weight_update_threshold <=? current_time - last_update info)%float
      then Py.dict_set d label (mkIngredient (quantity info + 1) current_time)
      else d
  end.

(** [for det in current_detections: ...]. The dictionary is updated in
    place: when a label lookup raises, the updates already made stay. *)
Fixpoint process_detections (labels : list string) (current_time : float)
    (current_detections : list Detection) (d : Py.dict ingredient)
  : Py.dict ingredient * option Py.exn :=
  match current_detections with
  | [] => (d, None)
  | det :: rest =>
      match label_of labels det with
      | Ok label =>
          process_detections labels current_time rest (count_label current_time d label)
      | Raise e => (d, Some e)
      end
  end.

Module Msg.

(** One element of [data_list]. *)
Record entry : Type := mk {
  name : string;
  quantity : Z;
  price : Py.value
}.

End Msg.

(** The emission loop of the active branch (lines 270-278). *)
Fixpoint data_list_active (PRODUCTS : Py.value) (items : Py.dict ingredient)
  : result (list Msg.entry) :=
  match items with
  | [] => Ok []
  | (label, info) :: rest =>
      product_info <- Py.get PRODUCTS label (VDict []) ;;
      price <- Py.get product_info "price" (VInt 0) ;;
      tail <- data_list_active PRODUCTS rest ;;
      Ok (Msg.mk label (quantity info) price :: tail)
  end.

(** The emission loop of the stopped branch (lines 282-290). *)
Fixpoint data_list_stopped (PRODUCTS : Py.value) (items : Py.dict ingredient)
  : result (list Msg.entry) :=
  match items with
  | [] => Ok []
  | (label, info) :: rest =>
      product_info <- Py.get PRODUCTS label (VDict []) ;;
      price <- Py.get product_info "price" (VInt 0) ;;
      tail <- data_list_stopped PRODUCTS rest ;;
      Ok (Msg.mk label (quantity info) price :: tail)
  end.

(** What one iteration of the loop ends with: the payload of the one
    [socketio.emit('detection_update', {"products": data_list})], or the
    exception that leaves the loop. *)
Inductive outcome : Type :=
| Emitted (products : list Msg.entry)
| Raised (e : Py.exn).

(** One iteration of [while True:] in [emit_detections]. [current_time] is
    the reading of [time.time()], [current_detections] the copy of
    [latest_detections]. *)
Definition emit_detections_step (labels : list string) (PRODUCTS : Py.value)
    (g : globals) (current_time : float) (current_detections : list Detection)
  : globals * outcome :=
  if detection_active g then
    match process_detections labels current_time current_detections
            (detected_ingredients g) with
    | (d, Some e) => (mkGlobals true d, Raised e)
    | (d, None) =>
        match data_list_active PRODUCTS d with
        | Ok data_list => (mkGlobals true d, Emitted data_list)
        | Raise e => (mkGlobals true d, Raised e)
        end
    end
  else
    match data_list_stopped PRODUCTS (detected_ingredients g) with
    | Ok data_list => (g, Emitted data_list)
    | Raise e => (g, Raised e)
    end.

(** *** The running system *)

(** What happens to the globals, in the order it happens: a client's
    signal, or one iteration of the emitter loop with its two readings. *)
Inductive event : Type :=
| start_detection
| stop_detection
| tick (current_time : float) (latest_detections : list Detection).

(** The globals, the emitter thread ([None] while its loop runs, else the
    exception that ended it) and the messages emitted so far, oldest first. *)
Record system : Type := mkSystem {
  vars : globals;
  emitter : option Py.exn;
  emitted : list (list Msg.entry)
}.

Definition initial_system : system := mkSystem initial_globals None [].

Definition step (labels : list string) (PRODUCTS : Py.value)
    (s : system) (ev : event) : system :=
  match ev with
  | start_detection => mkSystem (handle_start_detection (vars s)) (emitter s) (emitted s)
  | stop_detection => mkSystem (handle_stop_detection (vars s)) (emitter s) (emitted s)
  | tick current_time latest_detections =>
      match emitter s with
      | Some _ => s
      | None =>
          match emit_detections_step labels PRODUCTS (vars s) current_time latest_detections with
          | (g, Emitted data_list) => mkSystem g None (emitted s ++ [data_list])
          | (g, Raised e) => mkSystem g (Some e) (emitted s)
          end
      end
  end.

Definition run (labels : list string) (PRODUCTS : Py.value)
    (s : system) (evs : list event) : system :=
  fold_left (step labels PRODUCTS) evs s.

(** *** [pre_callback] as a whole *)

(** [zip(boxes, scores, classes)], each box with what
    [convert_inference_coords] gives for it on this frame. *)
Definition zip_outputs (convert : list Py.num -> result (list Py.num))
    (boxes : list (list Py.num)) (scores : list float) (classes : list Py.num)
  : list (list Py.num * float * Py.num * result (list Py.num)) :=
  map (fun t => (t, convert (fst (fst t)))) (combine (combine boxes scores) classes).

(** [pre_callback(request)]: [np_outputs] is [None] or the three arrays
    [boxes, scores, classes]. The first component of the result is the new
    value of the global [latest_detections], assigned before anything is
    drawn; the second is the outcome of the drawing block. *)
Definition pre_callback (cv2 : draw_op -> option Py.exn)
    (threshold : float) (labels : list string)
    (convert : list Py.num -> result (list Py.num))
    (np_outputs : option (list (list Py.num) * list float * list Py.num))
    (array : list draw_op) (q : Queue.t (list draw_op))
  : list Detection * option (Queue.t (list draw_op) * option Py.exn) :=
  let detections :=
    match np_outputs with
    | None => []
    | Some (boxes, scores, classes) =>
        pre_callback_detections threshold (zip_outputs convert boxes scores classes)
    end in
  (detections, pre_callback_draw cv2 labels detections array q).

(** *** Producer and consumers of the frame queue *)

(** What touches the queue: [pre_callback] pushing a frame, or the next
    statement of one running [generate_frames]; every client of
    [/video_feed] runs its own. *)
Inductive queue_op (A : Type) : Type :=
| producer_push (frame : A)
| consumer_step (client : nat).
Arguments producer_push {A} frame.
Arguments consumer_step {A} client.

(** The queue, the clients that have passed [if not frame_queue.empty()]
    and are about to call [frame_queue.get()], the frames yielded and the
    frames the queue has taken in, both oldest first. *)
Record stream (A : Type) : Type := mkStream {
  queue : Queue.t A;
  at_get : list nat;
  yielded : list A;
  enqueued : list A
}.
Arguments mkStream {A} queue at_get yielded enqueued.
Arguments queue {A} _.
Arguments at_get {A} _.
Arguments yielded {A} _.
Arguments enqueued {A} _.

(** One operation. A client that is not at its [get] runs the check: on an
    empty queue it sleeps and will check again, otherwise it moves on to
    its [get]. A client at its [get] takes the head of the queue and yields
    it. [None] is a thread waiting inside the queue: a [put] on a full queue
    or a [get] on an empty one. *)
Definition stream_step {A} (st : stream A) (op : queue_op A) : option (stream A) :=
  match op with
  | producer_push frame =>
      match push_frame (queue st) frame with
      | Some q' =>
          Some (mkStream q' (at_get st) (yielded st)
                  (if Queue.full (queue st) then enqueued st else enqueued st ++ [frame]))
      | None => None
      end
  | consumer_step client =>
      if existsb (Nat.eqb client) (at_get st) then
        match Queue.get (queue st) with
        | Some (frame, q') =>
            Some (mkStream q' (List.remove Nat.eq_dec client (at_get st))
                    (yielded st ++ [frame]) (enqueued st))
        | None => None
        end
      else if Queue.empty (queue st) then Some st
      else Some (mkStream (queue st) (client :: at_get st) (yielded st) (enqueued st))
  end.

Fixpoint stream_run {A} (st : stream A) (ops : list (queue_op A)) : option (stream A) :=
  match ops with
  | [] => Some st
  | op :: rest =>
      match stream_step st op with
      | Some st' => stream_run st' rest
      | None => None
      end
  end.

(** *** [add_test_detections] *)

Module TestMode.

(** The arguments of the test detection: [[100, 100, 200, 150]] and 0.95. *)
Definition coords : list Py.num := [NInt 100; NInt 100; NInt 200; NInt 150].
Definition conf : float := 0x1.e666666666666p-1%float.

(** How one pass of the loop ends: with the next category, or with the
    exception that ends the thread. [ZeroDivisionError] is the one [%]
    raises on a zero modulus. *)
Inductive outcome : Type :=
| Next (category : Z)
| Died (e : Py.exn)
| DiedZeroDivisionError.

(** One pass of [while True:]; [max_category] is [len(get_labels()) - 1],
    computed before the loop, [converted] what the conversion gives for the
    test coordinates. The first component is [latest_detections] afterwards. *)
Definition step (labels : list string) (converted : result (list Py.num))
    (max_category : Z) (category : Z) (latest_detections : list Detection)
  : list Detection * outcome :=
  match Detection_init converted coords (NInt category) conf with
  | Raise e => (latest_detections, Died e)
  | Ok test_detection =>
      match Py.index labels category with
      | Raise e => ([test_detection], Died e)
      | Ok label =>
          if max_category + 1 =? 0 then ([test_detection], DiedZeroDivisionError)
          else ([test_detection], Next ((category + 1) mod (max_category + 1)))
      end
  end.

(** [passes] passes of the loop, from the given category. *)
Fixpoint loop (labels : list string) (converted : result (list Py.num))
    (max_category : Z) (passes : nat) (category : Z)
    (latest_detections : list Detection) : list Detection * outcome :=
  match passes with
  | O => (latest_detections, Next category)
  | S passes' =>
      match step labels converted max_category category latest_detections with
      | (latest, Next category') =>
          loop labels converted max_category passes' category' latest
      | stopped => stopped
      end
  end.

(** [add_test_detections()], cut after [passes] passes. *)
Definition add_test_detections (labels : list string)
    (converted : result (list Py.num)) (passes : nat)
    (latest_detections : list Detection) : list Detection * outcome :=
  loop labels converted (Z.of_nat (List.length labels) - 1) passes 0 latest_detections.

End TestMode.

(** ** Vocabulary of the properties *)

(** The quantity a dictionary shows for a label, 0 when it has none. *)
Definition shown_quantity (d : Py.dict ingredient) (label : string) : Z :=
  match Py.dict_get d label with
  | Some info => quantity info
  | None => 0
  end.

(** The label is tracked and its timer has not run out at [current_time]. *)
Definition settled (current_time : float) (d : Py.dict ingredient) (label : string) : Prop :=
  exists info, Py.dict_get d label = Some info /\
    (weight_update_threshold <=? current_time - last_update info)%float = false.

(** The event is an iteration of the emitter. *)
Definition is_tick (ev : event) : bool :=
  match ev with
  | tick _ _ => true
  | _ => false
  end.

(** The event is the start signal. *)
Definition is_start (ev : event) : bool :=
  match ev with
  | start_detection => true
  | _ => false
  end.

(** Every detection of the list has a category the labels resolve. *)
Definition all_resolve (labels : list string) (dets : list Detection) : Prop :=
  forall det, In det dets -> exists label, label_of labels det = Ok label.

(** The labels of the detections the counting loop gets to: all of them, or
    those before the first one whose category does not resolve. *)
Fixpoint reached_labels (labels : list string) (dets : list Detection) : list string :=
  match dets with
  | [] => []
  | det :: rest =>
      match label_of labels det with
      | Ok label => label :: reached_labels labels rest
      | Raise _ => []
      end
  end.

(** The labels of the detections whose category the labels resolve. *)
Definition detected_labels (labels : list string) (dets : list Detection) : list string :=
  flat_map (fun det => match label_of labels det with
                       | Ok label => [label]
                       | Raise _ => []
                       end) dets.

(** The labels observed since the current session started, read off the
    events alone: a start signal opens a session in which nothing has been
    observed yet, a stop signal closes it, and while it is open every
    iteration observes the labels of all the detections it is given.
    [active] and [seen] are the session and the labels before [evs]. *)
Fixpoint observed_from (labels : list string) (active : bool) (seen : list string)
    (evs : list event) : list string :=
  match evs with
  | [] => seen
  | start_detection :: rest => observed_from labels true [] rest
  | stop_detection :: rest => observed_from labels false seen rest
  | tick _ latest_detections :: rest =>
      observed_from labels active
        (if active then seen ++ detected_labels labels latest_detections else seen) rest
  end.

(** The labels observed after the events [evs] from the start of the program. *)
Definition observed (labels : list string) (evs : list event) : list string :=
  observed_from labels false [] evs.

(** The value is a JSON object. *)
Definition is_dict (v : Py.value) : bool :=
  match v with
  | VDict _ => true
  | _ => false
  end.

(** The catalog has nothing usable for the label: no entry, or an entry
    without a ["price"]. *)
Definition price_missing (catalog : Py.dict Py.value) (label : string) : Prop :=
  Py.dict_get catalog label = None \/
  exists product_info,
    Py.dict_get catalog label = Some (VDict product_info) /\
    Py.dict_get product_info "price" = None.

(** The label has no entry, or its entry is an object. *)
Definition product_ok (catalog : Py.dict Py.value) (label : string) : Prop :=
  Py.dict_get catalog label = None \/
  exists product_info, Py.dict_get catalog label = Some (VDict product_info).

(** Every entry of the catalog is an object, as in
    [{"apple": {"price": 0.5}}]. *)
Definition catalog_ok (catalog : Py.dict Py.value) : bool :=
  forallb (fun kv => is_dict (snd kv)) catalog.

(** The price the catalog gives for a label, 0 by default. *)
Definition price_of (catalog : Py.dict Py.value) (label : string) : Py.value :=
  match Py.dict_get catalog label with
  | Some (VDict product_info) =>
      match Py.dict_get product_info "price" with
      | Some price => price
      | None => VInt 0
      end
  | _ => VInt 0
  end.

(** The entry a counted label is expected to get: its name, its stored
    quantity and the catalog's price. *)
Definition entry_of (catalog : Py.dict Py.value) (item : string * ingredient) : Msg.entry :=
  Msg.mk (fst item) (quantity (snd item)) (price_of catalog (fst item)).

(** Every component of the box is within its bound: between 0 and 640 at
    even indices (x and width), between 0 and 480 at odd ones (y and
    height). *)
Definition components_bounded (b : list Z) : Prop :=
  forall j z, nth_error b j = Some z -> 0 <= z <= frame_bound j.

(** The drawing pass can handle the detection: four box components, a
    category the labels resolve, and two calls that OpenCV accepts. *)
Definition drawable (cv2 : draw_op -> option Py.exn) (labels : list string)
    (det : Detection) : Prop :=
  exists x y w h name,
    box det = [x; y; w; h] /\
    label_of labels det = Ok name /\
    cv2 (putText name (conf det) (x + 5) (y + 15)) = None /\
    cv2 (rectangle x y (x + w) (y + h)) = None.

(** What the drawing pass writes for one detection it can handle. *)
Definition drawn (labels : list string) (det : Detection) : list draw_op :=
  match box det, label_of labels det with
  | [x; y; w; h], Ok name =>
      [putText name (conf det) (x + 5) (y + 15); rectangle x y (x + w) (y + h)]
  | _, _ => []
  end.

(** The integer fits a C [int]. *)
Definition fits_c_int (z : Z) : bool := (- 2 ^ 31 <=? z) && (z <? 2 ^ 31).

(** An OpenCV that raises [cv2.error] exactly when a coordinate does not
    fit a C [int]; the examples draw with it. *)
Definition cv2_c_int (op : draw_op) : option Py.exn :=
  match op with
  | putText _ _ x y =>
      if fits_c_int x && fits_c_int y then None else Some Cv2Error
  | rectangle x1 y1 x2 y2 =>
      if fits_c_int x1 && fits_c_int y1 && fits_c_int x2 && fits_c_int y2
      then None else Some Cv2Error
  end.

(** The exception the counting loop ends with, if any: that of the first
    detection whose label lookup raises. *)
Fixpoint first_error (labels : list string) (dets : list Detection) : option Py.exn :=
  match dets with
  | [] => None
  | det :: rest =>
      match label_of labels det with
      | Ok _ => first_error labels rest
      | Raise e => Some e
      end
  end.

(** The number of emitter iterations among the events. *)
Definition ticks (evs : list event) : Z :=
  Z.of_nat (List.length (filter is_tick evs)).

(** The frames pushed by the producer, oldest first. *)
Fixpoint pushed {A} (ops : list (queue_op A)) : list A :=
  match ops with
  | [] => []
  | producer_push frame :: rest => frame :: pushed rest
  | consumer_step _ :: rest => pushed rest
  end.

(** The number of statements run by consumers. *)
Fixpoint consumer_steps {A} (ops : list (queue_op A)) : nat :=
  match ops with
  | [] => O
  | producer_push _ :: rest => consumer_steps rest
  | consumer_step _ :: rest => S (consumer_steps rest)
  end.

(** Every consumer statement among the operations is run by [client]:
    a single [generate_frames] is running. *)
Definition only_client {A} (client : nat) (ops : list (queue_op A)) : bool :=
  forallb (fun op => match op with
                     | producer_push _ => true
                     | consumer_step c => Nat.eqb c client
                     end) ops.

(** With one consumer [client]: the queue is within its bound, what was
    yielded and what is queued make up what was taken in, and the consumer
    is at its [get] only when the queue has a frame for it. *)
Definition stream_ok {A} (client : nat) (st : stream A) : Prop :=
  0 < Queue.maxsize (queue st) /\
  Queue.qsize (queue st) <= Queue.maxsize (queue st) /\
  yielded st ++ Queue.items (queue st) = enqueued st /\
  (at_get st = [] \/ (at_get st = [client] /\ Queue.items (queue st) <> [])).

(** [l1] is [l2] with some elements left out, the others in their order. *)
Inductive subsequence {A : Type} : list A -> list A -> Prop :=
| subsequence_nil : subsequence [] []
| subsequence_skip (x : A) (l1 l2 : list A) :
    subsequence l1 l2 -> subsequence l1 (x :: l2)
| subsequence_take (x : A) (l1 l2 : list A) :
    subsequence l1 l2 -> subsequence (x :: l1) (x :: l2).

(** * Properties *)

(** ** Binary64 facts used by the clock comparisons *)

Module FloatFacts.

Lemma SFcompare_antisym (x y : spec_float) :
  SFcompare y x = option_map CompOpp (SFcompare x y).
Proof.
  destruct x as [sx | sx | | sx mx ex], y as [sy | sy | | sy my ey]; simpl;
    try (destruct sx; reflexivity); try (destruct sy; reflexivity);
    try (destruct sx, sy; reflexivity); try reflexivity.
  destruct sx, sy; simpl; try reflexivity;
    rewrite (Z.compare_antisym ex ey);
    destruct (ex ?= ey)%Z; simpl; try reflexivity;
    rewrite !Pos.compare_cont_spec; simpl;
    rewrite (Pos.compare_antisym mx my);
    destruct (mx ?= my)%positive; reflexivity.
Qed.

(** [x < y] excludes [y <= x]. *)
Lemma ltb_not_leb (x y : float) :
  (x <? y)%float = true -> (y <=? x)%float = false.
Proof.
  rewrite ltb_spec, leb_spec. unfold SFltb, SFleb.
  rewrite (SFcompare_antisym (Prim2SF x) (Prim2SF y)).
  destruct (SFcompare (Prim2SF x) (Prim2SF y)) as [[ | | ] | ]; simpl; congruence.
Qed.

(** [t - t] is a zero or a nan. *)
Lemma sub_diag_spec (t : float) :
  Prim2SF (t - t)%float = S754_zero false \/ Prim2SF (t - t)%float = S754_nan.
Proof.
  rewrite sub_spec. unfold SF64sub, SFsub.
  destruct (Prim2SF t) as [s | s | | s m e].
  - left. destruct s; reflexivity.
  - right. destruct s; reflexivity.
  - right. reflexivity.
  - left. rewrite Z.sub_diag. reflexivity.
Qed.

(** No reading of the clock is two seconds after itself. *)
Lemma sub_diag_below_threshold (t : float) :
  (weight_update_threshold <=? t - t)%float = false.
Proof.
  rewrite leb_spec.
  destruct (sub_diag_spec t) as [H | H]; rewrite H; reflexivity.
Qed.

End FloatFacts.

(** ** Dictionaries *)

Section DictFacts.

Context {V : Type}.
Implicit Types (d : Py.dict V) (k : string) (v : V).

Lemma dict_get_set_same d k v : Py.dict_get (Py.dict_set d k v) k = Some v.
Proof.
  induction d as [| [k' v'] d IH]; simpl.
  - now rewrite String.eqb_refl.
  - destruct (String.eqb k k') eqn:E; simpl; rewrite E; auto.
Qed.

Lemma dict_get_set_other d k k' v :
  k <> k' -> Py.dict_get (Py.dict_set d k v) k' = Py.dict_get d k'.
Proof.
  intros Hne. induction d as [| [k0 v0] d IH]; simpl.
  - destruct (String.eqb k' k) eqn:E; auto.
    apply String.eqb_eq in E. congruence.
  - destruct (String.eqb k k0) eqn:E; simpl.
    + apply String.eqb_eq in E. subst k0.
      destruct (String.eqb k' k) eqn:E'; auto.
      apply String.eqb_eq in E'. congruence.
    + now rewrite IH.
Qed.

Lemma dict_get_none_iff d k : Py.dict_get d k = None <-> ~ In k (Py.keys d).
Proof.
  induction d as [| [k' v'] d IH]; simpl.
  - tauto.
  - destruct (String.eqb k k') eqn:E.
    + apply String.eqb_eq in E. split; [discriminate | intros H; exfalso; auto].
    + apply String.eqb_neq in E. rewrite IH. split.
      * intros H [H' | H']; [congruence | auto].
      * intros H H'. auto.
Qed.

Lemma dict_get_some_iff d k : (exists v, Py.dict_get d k = Some v) <-> In k (Py.keys d).
Proof.
  destruct (Py.dict_get d k) as [v |] eqn:E.
  - split; [intros _ | intros _; eauto].
    destruct (in_dec string_dec k (Py.keys d)) as [H | H]; auto.
    apply dict_get_none_iff in H. congruence.
  - split; [intros [v H]; discriminate |].
    intros H. apply dict_get_none_iff in E. contradiction.
Qed.

(** Assigning to a key the dictionary has keeps the order of the keys. *)
Lemma keys_set_present d k v :
  In k (Py.keys d) -> Py.keys (Py.dict_set d k v) = Py.keys d.
Proof.
  induction d as [| [k' v'] d IH]; simpl; [tauto |].
  intros H. destruct (String.eqb k k') eqn:E; simpl; auto.
  apply String.eqb_neq in E. f_equal. apply IH.
  destruct H; [congruence | assumption].
Qed.

(** Assigning to a new key appends the item. *)
Lemma dict_set_absent d k v :
  Py.dict_get d k = None -> Py.dict_set d k v = d ++ [(k, v)].
Proof.
  induction d as [| [k' v'] d IH]; simpl; auto.
  destruct (String.eqb k k'); [discriminate |].
  intros H. now rewrite IH.
Qed.

(** An item of a dictionary without repeated keys is what [get] finds. *)
Lemma In_dict_get d k v :
  NoDup (Py.keys d) -> In (k, v) d -> Py.dict_get d k = Some v.
Proof.
  induction d as [| [k' v'] d IH]; simpl; [tauto |].
  intros Hnd [H | H].
  - inversion H; subst. now rewrite String.eqb_refl.
  - inversion Hnd as [| ? ? Hnotin Hnd']; subst.
    destruct (String.eqb k k') eqn:E.
    + apply String.eqb_eq in E. subst k'. exfalso. apply Hnotin.
      change k with (fst (k, v)). now apply in_map.
    + auto.
Qed.

Lemma dict_get_In d k v : Py.dict_get d k = Some v -> In (k, v) d.
Proof.
  induction d as [| [k' v'] d IH]; simpl; [discriminate |].
  destruct (String.eqb k k') eqn:E.
  - apply String.eqb_eq in E. intros H. inversion H; subst. now left.
  - intros H. right. auto.
Qed.

Lemma dict_set_NoDup d k v :
  NoDup (Py.keys d) -> NoDup (Py.keys (Py.dict_set d k v)).
Proof.
  intros Hnd.
  destruct (Py.dict_get d k) as [v0 |] eqn:E.
  - rewrite keys_set_present; auto. apply dict_get_some_iff. eauto.
  - rewrite dict_set_absent by assumption.
    unfold Py.keys. rewrite map_app. simpl.
    apply NoDup_app; [assumption | repeat constructor; simpl; tauto |].
    intros x Hx [Hk | []]. subst x.
    apply dict_get_none_iff in E. contradiction.
Qed.

End DictFacts.

(** ** Counting one label *)

Section CountLabel.

Variable current_time : float.
Implicit Types (d : Py.dict ingredient) (label : string).

Lemma count_label_new d label :
  Py.dict_get d label = None ->
  count_label current_time d label = d ++ [(label, mkIngredient 1 current_time)].
Proof.
  intros H. unfold count_label. rewrite H. now apply dict_set_absent.
Qed.

Lemma count_label_due d label info :
  Py.dict_get d label = Some info ->
  (weight_update_threshold <=? current_time - last_update info)%float = true ->
  count_label current_time d label =
  Py.dict_set d label (mkIngredient (quantity info + 1) current_time).
Proof.
  intros H Hdue. unfold count_label. now rewrite H, Hdue.
Qed.

Lemma count_label_early d label info :
  Py.dict_get d label = Some info ->
  (weight_update_threshold <=? current_time - last_update info)%float = false ->
  count_label current_time d label = d.
Proof.
  intros H Hearly. unfold count_label. now rewrite H, Hearly.
Qed.

(** Counting a label leaves the records of the other labels alone. *)
Lemma count_label_other d label label' :
  label <> label' ->
  Py.dict_get (count_label current_time d label) label' = Py.dict_get d label'.
Proof.
  intros Hne. unfold count_label.
  destruct (Py.dict_get d label) as [info |].
  - destruct (_ <=? _)%float; auto using dict_get_set_other.
  - auto using dict_get_set_other.
Qed.

(** Once a label has been counted at [current_time] its timer is fresh. *)
Lemma count_label_settles d label :
  settled current_time (count_label current_time d label) label.
Proof.
  unfold settled, count_label.
  destruct (Py.dict_get d label) as [info |] eqn:E.
  - destruct (_ <=? _)%float eqn:Hdue.
    + eexists. rewrite dict_get_set_same. split; [reflexivity |].
      apply FloatFacts.sub_diag_below_threshold.
    + eauto.
  - eexists. rewrite dict_get_set_same. split; [reflexivity |].
    apply FloatFacts.sub_diag_below_threshold.
Qed.

Lemma settled_noop d label :
  settled current_time d label -> count_label current_time d label = d.
Proof.
  intros (info & H & Hearly). eauto using count_label_early.
Qed.

Lemma settled_stable d label label' :
  settled current_time d label ->
  settled current_time (count_label current_time d label') label.
Proof.
  intros Hs. destruct (string_dec label' label) as [-> | Hne].
  - now rewrite settled_noop.
  - destruct Hs as (info & H & Hearly). exists info.
    rewrite count_label_other; auto.
Qed.

Lemma count_label_NoDup d label :
  NoDup (Py.keys d) -> NoDup (Py.keys (count_label current_time d label)).
Proof.
  intros H. unfold count_label.
  destruct (Py.dict_get d label) as [info |].
  - destruct (_ <=? _)%float; auto using dict_set_NoDup.
  - auto using dict_set_NoDup.
Qed.


(** Counting moves the shown quantity up by 0 or 1. *)
Lemma count_label_quantity d label :
  shown_quantity (count_label current_time d label) label = shown_quantity d label \/
  shown_quantity (count_label current_time d label) label = shown_quantity d label + 1.
Proof.
  unfold shown_quantity, count_label.
  destruct (Py.dict_get d label) as [info |] eqn:E.
  - destruct (_ <=? _)%float.
    + right. now rewrite dict_get_set_same.
    + left. now rewrite E.
  - right. now rewrite dict_get_set_same.
Qed.

Lemma count_label_quantity_other d label label' :
  label <> label' ->
  shown_quantity (count_label current_time d label) label' = shown_quantity d label'.
Proof.
  intros Hne. unfold shown_quantity. now rewrite count_label_other.
Qed.


End CountLabel.

(** ** C1: temporal deduplication *)

(** C1. Processing one detection whose category resolves to [label] at time
    [current_time]: a label with no record gets quantity 1 and
    [last_update = current_time]; a label with a record gets its quantity
    raised by exactly 1 and [last_update = current_time] when
    [current_time - last_update >= 2.0]; when [current_time - last_update < 2.0]
    the dictionary is left as it was, timer included. The records of the
    other labels are never touched. *)
Theorem temporal_deduplication
    (labels : list string) (current_time : float) (det : Detection)
    (label : string) (d : Py.dict ingredient) :
  label_of labels det = Ok label ->
  let d' := fst (process_detections labels current_time [det] d) in
  (Py.dict_get d label = None ->
     Py.dict_get d' label = Some (mkIngredient 1 current_time)) /\
  (forall info, Py.dict_get d label = Some info ->
     (weight_update_threshold <=? current_time - last_update info)%float = true ->
     Py.dict_get d' label = Some (mkIngredient (quantity info + 1) current_time)) /\
  (forall info, Py.dict_get d label = Some info ->
     (current_time - last_update info <? weight_update_threshold)%float = true ->
     d' = d) /\
  (forall label', label <> label' -> Py.dict_get d' label' = Py.dict_get d label').
Proof.
  intros Hlabel. simpl. rewrite Hlabel. simpl.
  repeat split.
  - intros H. unfold count_label. rewrite H. apply dict_get_set_same.
  - intros info H Hdue.
    rewrite (count_label_due current_time d label info H Hdue).
    apply dict_get_set_same.
  - intros info H Hlt.
    apply (count_label_early current_time d label info H).
    now apply FloatFacts.ltb_not_leb.
  - intros label' Hne. now apply count_label_other.
Qed.

(** The rule on the scenario of the specification: "apple" seen at 0 s is
    counted once; seen again at 1.0 s it stays at 1 with its timer at 0;
    seen at 2.5 s it goes to 2 and the timer moves to 2.5. *)
Lemma temporal_deduplication_witness :
  let apple := mkDetection (NInt 0) 0.75%float [100; 100; 200; 150] in
  let d0 := [("apple", mkIngredient 1 0%float)] in
  label_of ["apple"; "banana"] apple = Ok "apple" /\
  fst (process_detections ["apple"; "banana"] 0%float [apple] []) = d0 /\
  fst (process_detections ["apple"; "banana"] 1%float [apple] d0) = d0 /\
  Py.dict_get (fst (process_detections ["apple"; "banana"] 2.5%float [apple] d0)) "apple"
    = Some (mkIngredient 2 2.5%float).
Proof.
  intros apple d0.
  pose proof (temporal_deduplication ["apple"; "banana"] 1%float apple "apple" d0
                eq_refl) as (_ & _ & Hearly & _).
  pose proof (temporal_deduplication ["apple"; "banana"] 2.5%float apple "apple" d0
                eq_refl) as (_ & Hdue & _ & _).
  split; [reflexivity |]. split; [reflexivity |]. split.
  - apply (Hearly (mkIngredient 1 0%float)); reflexivity.
  - apply (Hdue (mkIngredient 1 0%float)); reflexivity.
Defined.

(** ** The loop over the detections of one tick *)

Section ProcessDetections.

Variable labels : list string.
Variable current_time : float.
Implicit Types (d : Py.dict ingredient) (dets : list Detection).

Lemma process_detections_app dets1 dets2 d :
  process_detections labels current_time (dets1 ++ dets2) d =
  match process_detections labels current_time dets1 d with
  | (d1, None) => process_detections labels current_time dets2 d1
  | (d1, Some e) => (d1, Some e)
  end.
Proof.
  revert d. induction dets1 as [| det dets1 IH]; intros d; simpl; auto.
  destruct (label_of labels det); auto.
Qed.

(** What every [count_label] keeps, the loop keeps, finished or not. *)
Lemma process_detections_preserves (P : Py.dict ingredient -> Prop) dets d :
  (forall d0 label, P d0 -> P (count_label current_time d0 label)) ->
  P d -> P (fst (process_detections labels current_time dets d)).
Proof.
  intros Hstep. revert d. induction dets as [| det dets IH]; intros d Hd; simpl; auto.
  destruct (label_of labels det); simpl; auto.
Qed.

(** A label the loop has passed is settled when the loop finishes. *)
Lemma process_detections_settles dets d d1 det0 label :
  In det0 dets -> label_of labels det0 = Ok label ->
  process_detections labels current_time dets d = (d1, None) ->
  settled current_time d1 label.
Proof.
  revert d. induction dets as [| det dets IH]; intros d Hin Hlabel; simpl; [contradiction |].
  destruct (label_of labels det) as [l |] eqn:E; [| discriminate].
  destruct Hin as [-> | Hin]; [| eauto].
  intros Hrun. rewrite Hlabel in E. injection E as <-.
  pose proof (process_detections_preserves
                (fun d0 => settled current_time d0 label) dets
                (count_label current_time d label)
                (fun d0 l H => settled_stable current_time d0 label l H)
                (count_label_settles current_time d label)) as H.
  now rewrite Hrun in H.
Qed.

(** A repeated label changes nothing: the loop runs as if the later
    detection were not in the list. *)
Lemma process_detections_repeat pre det post label d :
  label_of labels det = Ok label ->
  (exists det0, In det0 pre /\ label_of labels det0 = Ok label) ->
  process_detections labels current_time (pre ++ det :: post) d =
  process_detections labels current_time (pre ++ post) d.
Proof.
  intros Hlabel (det0 & Hin & Hlabel0).
  rewrite !process_detections_app.
  destruct (process_detections labels current_time pre d) as [d1 [e |]] eqn:Hpre; auto.
  simpl. rewrite Hlabel.
  now rewrite (settled_noop current_time d1 label
                 (process_detections_settles pre d d1 det0 label Hin Hlabel0 Hpre)).
Qed.

(** Over a whole tick a label's shown quantity moves up by 0 or 1. *)
Lemma process_detections_quantity dets d label :
  shown_quantity d label
    <= shown_quantity (fst (process_detections labels current_time dets d)) label
    <= shown_quantity d label + 1.
Proof.
  set (q := shown_quantity d label).
  cut (let d' := fst (process_detections labels current_time dets d) in
       shown_quantity d' label = q \/
       (settled current_time d' label /\ shown_quantity d' label = q + 1)).
  { simpl. intros [-> | [_ ->]]; lia. }
  apply (process_detections_preserves
           (fun d0 => shown_quantity d0 label = q \/
                      (settled current_time d0 label /\ shown_quantity d0 label = q + 1)));
    [| now left].
  intros d0 l [H | [Hs H]].
  - destruct (string_dec l label) as [-> | Hne].
    + destruct (count_label_quantity current_time d0 label) as [H' | H'].
      * left. congruence.
      * right. split; [apply count_label_settles | congruence].
    + left. now rewrite count_label_quantity_other.
  - right. split; [now apply settled_stable |].
    destruct (string_dec l label) as [-> | Hne].
    + now rewrite settled_noop.
    + now rewrite count_label_quantity_other.
Qed.

End ProcessDetections.

(** ** C10: a label counts at most once per tick *)

(** C10. Within one aggregation tick (one [current_time]), a detection whose
    label an earlier detection of the same tick already carried is a no-op:
    the loop gives the same dictionary and the same outcome as without it.
    So each label's quantity (0 when it has no record) goes up by at most 1
    over the tick, however many detections carry it. *)
Theorem per_tick_idempotence
    (labels : list string) (current_time : float) (d : Py.dict ingredient) :
  (forall pre det post label,
     label_of labels det = Ok label ->
     (exists det0, In det0 pre /\ label_of labels det0 = Ok label) ->
     process_detections labels current_time (pre ++ det :: post) d =
     process_detections labels current_time (pre ++ post) d) /\
  (forall dets label,
     shown_quantity d label
       <= shown_quantity (fst (process_detections labels current_time dets d)) label
       <= shown_quantity d label + 1).
Proof.
  split.
  - intros pre det post label. apply process_detections_repeat.
  - intros dets label. apply process_detections_quantity.
Qed.

(** Five detections of "apple" and one of "banana" in one tick at 10 s, with
    "apple" last counted at 0 s: "apple" goes from 3 to 4, not to 8. *)
Example example_repeated_label_in_one_tick :
  let apple := mkDetection (NInt 0) 0.75%float [100; 100; 200; 150] in
  let banana := mkDetection (NInt 1) 0.5%float [10; 10; 20; 20] in
  process_detections ["apple"; "banana"] 10%float
    [apple; apple; banana; apple; apple; apple]
    [("apple", mkIngredient 3 0%float)] =
  ([("apple", mkIngredient 4 10%float); ("banana", mkIngredient 1 10%float)], None).
Proof. reflexivity. Qed.

(** ** The two emission loops *)

(** The stopped branch repeats the active branch's loop word for word. *)
Lemma data_list_stopped_active (PRODUCTS : Py.value) (items : Py.dict ingredient) :
  data_list_stopped PRODUCTS items = data_list_active PRODUCTS items.
Proof.
  induction items as [| [label info] items IH]; simpl; [reflexivity |].
  now rewrite IH.
Qed.

(** ** C2: the start signal resets the session *)

(** C2. Whatever the globals hold, [handle_start_detection] leaves the
    session active with an empty [detected_ingredients]; an iteration of the
    emitter that follows with no detection to process emits an empty
    product list, and so does one that follows a stop, whatever it reads. *)
Theorem session_reset_on_start
    (labels : list string) (PRODUCTS : Py.value) (g : globals)
    (current_time : float) (current_detections : list Detection) :
  detection_active (handle_start_detection g) = true /\
  detected_ingredients (handle_start_detection g) = [] /\
  emit_detections_step labels PRODUCTS (handle_start_detection g) current_time []
    = (mkGlobals true [], Emitted []) /\
  emit_detections_step labels PRODUCTS
      (handle_stop_detection (handle_start_detection g)) current_time current_detections
    = (mkGlobals false [], Emitted []).
Proof. repeat split. Qed.

(** A session with counts, stopped and started again, starts from nothing. *)
Example example_restart_clears_counts :
  let g := mkGlobals true [("apple", mkIngredient 2 2.5%float)] in
  handle_start_detection (handle_stop_detection g) = mkGlobals true [].
Proof. reflexivity. Qed.

(** ** C3: the stop signal freezes the counts *)

Section Frozen.

Variable labels : list string.
Variable PRODUCTS : Py.value.

(** While the session is stopped an iteration leaves the globals alone. *)
Lemma stopped_step_vars (g : globals) current_time current_detections :
  detection_active g = false ->
  fst (emit_detections_step labels PRODUCTS g current_time current_detections) = g.
Proof.
  intros H. unfold emit_detections_step. rewrite H.
  destruct (data_list_stopped PRODUCTS (detected_ingredients g)); reflexivity.
Qed.

(** ... and what it emits, if anything, is the list of the frozen counts. *)
Lemma stopped_step_emits (g : globals) current_time current_detections data_list :
  detection_active g = false ->
  snd (emit_detections_step labels PRODUCTS g current_time current_detections)
    = Emitted data_list ->
  data_list_stopped PRODUCTS (detected_ingredients g) = Ok data_list.
Proof.
  intros H. unfold emit_detections_step. rewrite H.
  destruct (data_list_stopped PRODUCTS (detected_ingredients g)); simpl; congruence.
Qed.

Lemma stopped_run (s : system) (evs : list event) :
  detection_active (vars s) = false ->
  forallb is_tick evs = true ->
  vars (run labels PRODUCTS s evs) = vars s /\
  exists news,
    emitted (run labels PRODUCTS s evs) = emitted s ++ news /\
    Forall (fun m => data_list_stopped PRODUCTS (detected_ingredients (vars s)) = Ok m) news.
Proof.
  unfold run. revert s. induction evs as [| ev evs IH]; intros s Hs Hevs; simpl.
  - split; [reflexivity |]. exists []. now rewrite app_nil_r.
  - simpl in Hevs. apply andb_prop in Hevs as [Hev Hevs].
    destruct ev as [| | current_time dets]; try discriminate. simpl.
    destruct (emitter s) as [e |] eqn:Hem; [now apply IH |].
    pose proof (stopped_step_vars (vars s) current_time dets Hs) as Hvars.
    pose proof (stopped_step_emits (vars s) current_time dets) as Hmsg.
    destruct (emit_detections_step labels PRODUCTS (vars s) current_time dets)
      as [g [data_list | e]]; simpl in Hvars; subst g.
    + destruct (IH (mkSystem (vars s) None (emitted s ++ [data_list])) Hs Hevs)
        as (Hv & news & Hnews & Hall).
      split; [exact Hv |]. exists (data_list :: news). simpl in *.
      split; [now rewrite Hnews, <- app_assoc |].
      constructor; auto.
    + destruct (IH (mkSystem (vars s) (Some e) (emitted s)) Hs Hevs)
        as (Hv & news & Hnews & Hall).
      split; [exact Hv |]. now exists news.
Qed.

End Frozen.

(** C3. [handle_stop_detection] makes the session inactive and keeps
    [detected_ingredients] as it is; from an inactive session, any run of
    emitter iterations, whatever time and detections each reads, ends with
    the same globals, and every message emitted on the way is the product
    list of those frozen counts. *)
Theorem freeze_on_stop
    (labels : list string) (PRODUCTS : Py.value) (s : system) (evs : list event) :
  detection_active (vars s) = false ->
  forallb is_tick evs = true ->
  (forall g, detection_active (handle_stop_detection g) = false /\
             detected_ingredients (handle_stop_detection g) = detected_ingredients g) /\
  vars (run labels PRODUCTS s evs) = vars s /\
  exists news,
    emitted (run labels PRODUCTS s evs) = emitted s ++ news /\
    Forall (fun m => data_list_stopped PRODUCTS (detected_ingredients (vars s)) = Ok m) news.
Proof.
  intros Hs Hevs. split; [intros g; split; reflexivity |].
  now apply stopped_run.
Qed.

(** "apple" at 2, a stop, then three more iterations that each see "apple":
    the count stays at 2 and each of the three messages shows 2. *)
Lemma freeze_on_stop_witness :
  let apple := mkDetection (NInt 0) 0.75%float [100; 100; 200; 150] in
  let catalog := VDict [("apple", VDict [("price", VFloat 0.5%float)])] in
  let s := mkSystem (handle_stop_detection
                       (mkGlobals true [("apple", mkIngredient 2 2.5%float)])) None [] in
  let evs := [tick 3%float [apple]; tick 6%float [apple]; tick 9%float [apple]] in
  detection_active (vars s) = false /\
  forallb is_tick evs = true /\
  vars (run ["apple"] catalog s evs) = vars s /\
  emitted (run ["apple"] catalog s evs)
    = repeat [Msg.mk "apple" 2 (VFloat 0.5%float)] 3.
Proof.
  intros apple catalog s evs.
  destruct (freeze_on_stop ["apple"] catalog s evs eq_refl eq_refl) as (_ & Hvars & _).
  split; [reflexivity |]. split; [reflexivity |].
  split; [exact Hvars | reflexivity].
Defined.

(** ** C5: the frame queue drops the newest frame when full *)

Section FrameQueue.

Context {A : Type}.
Implicit Types (q : Queue.t A) (frame : A) (frames : list A).

(** The guarded push either appends or does nothing; it never waits. *)
Lemma push_frame_spec q frame :
  push_frame q frame =
  Some (if Queue.full q then q else Queue.mk (Queue.maxsize q) (Queue.items q ++ [frame])).
Proof.
  unfold push_frame, Queue.put. destruct (Queue.full q); reflexivity.
Qed.

Lemma full_iff (n : Z) (l : list A) :
  0 < n -> (List.length l <= Z.to_nat n)%nat ->
  Queue.full (Queue.mk n l) = true <-> List.length l = Z.to_nat n.
Proof.
  intros Hn Hle. unfold Queue.full, Queue.qsize. simpl.
  rewrite andb_true_iff, Z.ltb_lt, Z.leb_le. lia.
Qed.

(** A run of pushes fills the free slots in order and drops the rest. *)
Lemma push_frames_spec (n : Z) (l : list A) frames :
  0 < n -> (List.length l <= Z.to_nat n)%nat ->
  push_frames (Queue.mk n l) frames =
  Some (Queue.mk n (l ++ firstn (Z.to_nat n - List.length l) frames)).
Proof.
  intros Hn. revert l. induction frames as [| frame frames IH]; intros l Hle; simpl.
  - now rewrite firstn_nil, app_nil_r.
  - rewrite push_frame_spec.
    destruct (Queue.full (Queue.mk n l)) eqn:Hfull.
    + apply full_iff in Hfull; auto.
      rewrite IH by assumption.
      replace (Z.to_nat n - List.length l)%nat with 0%nat by lia. reflexivity.
    + assert (List.length l <> Z.to_nat n) as Hne.
      { intros H. apply full_iff in H; auto. congruence. }
      simpl. rewrite IH by (rewrite length_app; simpl; lia).
      rewrite length_app. simpl.
      replace (Z.to_nat n - List.length l)%nat
        with (S (Z.to_nat n - (List.length l + 1)))%nat by lia.
      simpl. now rewrite <- app_assoc.
Qed.

(** Polling gives the queued frames back, oldest first. *)
Lemma drain_spec (n : Z) (l : list A) (fuel : nat) :
  (List.length l < fuel)%nat -> drain fuel (Queue.mk n l) = Some l.
Proof.
  revert l. induction fuel as [| fuel IH]; intros l Hlt; [lia |].
  destruct l as [| x l]; [reflexivity |].
  simpl in Hlt. unfold drain; fold (@drain A). unfold poll_frame. simpl.
  now rewrite IH by lia.
Qed.

End FrameQueue.

(** C5. The frame queue has capacity 10. A guarded push onto a full queue
    returns the queue as it was; a guarded push never waits and keeps every
    queued frame in place, in front of whatever it adds. Pushing any run of
    frames onto the empty queue, with no pop in between, leaves exactly its
    first 10 frames, which polling returns oldest first; with 11 frames the
    eleventh is the one that is lost. *)
Theorem bounded_buffer_drop_newest {A : Type} (frames : list A) :
  Queue.maxsize (@frame_queue A) = 10 /\
  (forall (q : Queue.t A) frame, Queue.full q = true -> push_frame q frame = Some q) /\
  (forall (q : Queue.t A) frame, exists q' added,
      push_frame q frame = Some q' /\ Queue.items q' = Queue.items q ++ added) /\
  push_frames frame_queue frames = Some (Queue.mk 10 (firstn 10 frames)) /\
  drain (S (List.length frames)) (Queue.mk 10 (firstn 10 frames)) = Some (firstn 10 frames) /\
  (forall first10 (last : A), List.length first10 = 10%nat ->
      push_frames frame_queue (first10 ++ [last]) = Some (Queue.mk 10 first10)).
Proof.
  split; [reflexivity |]. split; [| split; [| split; [| split]]].
  - intros q frame H. rewrite push_frame_spec. now rewrite H.
  - intros q frame. rewrite push_frame_spec.
    destruct (Queue.full q).
    + exists q, []. now rewrite app_nil_r.
    + eexists _, [frame]. split; reflexivity.
  - unfold frame_queue, Queue.new. rewrite push_frames_spec by (simpl; lia).
    reflexivity.
  - apply drain_spec. rewrite length_firstn. lia.
  - intros first10 last Hlen.
    unfold frame_queue, Queue.new. rewrite push_frames_spec by (simpl; lia).
    simpl List.length. change (Z.to_nat 10 - 0)%nat with 10%nat.
    rewrite <- Hlen, firstn_app, Nat.sub_diag, firstn_all. simpl.
    now rewrite app_nil_r.
Qed.

(** Eleven frames pushed, ten polled back in the order they were pushed. *)
Example example_eleven_frames :
  let frames := [1; 2; 3; 4; 5; 6; 7; 8; 9; 10; 11] in
  match push_frames frame_queue frames with
  | Some q => drain 12 q
  | None => None
  end = Some [1; 2; 3; 4; 5; 6; 7; 8; 9; 10].
Proof. reflexivity. Qed.

(** ** The product catalog *)

Section Catalog.

Variable catalog : Py.dict Py.value.

Lemma price_missing_ok label : price_missing catalog label -> product_ok catalog label.
Proof.
  intros [H | (product_info & H & _)]; [now left | right; eauto].
Qed.

Lemma price_missing_zero label : price_missing catalog label -> price_of catalog label = VInt 0.
Proof.
  unfold price_of. intros [H | (product_info & H & Hp)]; rewrite H; [| rewrite Hp]; reflexivity.
Qed.

Lemma catalog_ok_product_ok label : catalog_ok catalog = true -> product_ok catalog label.
Proof.
  unfold catalog_ok, product_ok. intros Hok.
  destruct (Py.dict_get catalog label) as [v |] eqn:E; [right | now left].
  apply dict_get_In in E. rewrite forallb_forall in Hok.
  specialize (Hok _ E). simpl in Hok.
  destruct v; try discriminate. eauto.
Qed.

(** The two lookups of one pass of the emission loop. *)
Lemma lookups_ok label :
  product_ok catalog label ->
  (product_info <- Py.get (VDict catalog) label (VDict []) ;;
   Py.get product_info "price" (VInt 0)) = Ok (price_of catalog label).
Proof.
  unfold price_of. intros [H | (product_info & H)]; simpl; rewrite H; simpl.
  - reflexivity.
  - destruct (Py.dict_get product_info "price"); reflexivity.
Qed.

Lemma data_list_active_cons label info rest :
  product_ok catalog label ->
  data_list_active (VDict catalog) ((label, info) :: rest) =
  (tail <- data_list_active (VDict catalog) rest ;;
   Ok (Msg.mk label (quantity info) (price_of catalog label) :: tail)).
Proof.
  intros Hok. pose proof (lookups_ok label Hok) as H.
  cbn [data_list_active].
  destruct (Py.get (VDict catalog) label (VDict [])) as [product_info | e]; simpl in *;
    [| discriminate].
  now rewrite H.
Qed.

Lemma data_list_active_ok (items : Py.dict ingredient) :
  (forall label, In label (Py.keys items) -> product_ok catalog label) ->
  data_list_active (VDict catalog) items = Ok (map (entry_of catalog) items).
Proof.
  induction items as [| [label info] items IH]; intros Hok; [reflexivity |].
  rewrite data_list_active_cons by (apply Hok; now left).
  rewrite IH by (intros l Hl; apply Hok; now right).
  reflexivity.
Qed.

Lemma entry_names (items : Py.dict ingredient) :
  map Msg.name (map (entry_of catalog) items) = Py.keys items.
Proof.
  unfold Py.keys. rewrite map_map. reflexivity.
Qed.

End Catalog.

(** ** Labels without a price *)

(** "kiwi" is not in the catalog and "pear" has no price: both are listed at
    price 0 next to "apple" at its price. *)
Example example_labels_without_price :
  let catalog := VDict [("apple", VDict [("price", VFloat 0.5%float)]);
                        ("pear", VDict [("unit", VStr "kg")])] in
  let counts := [("kiwi", mkIngredient 1 0%float);
                 ("apple", mkIngredient 2 2.5%float);
                 ("pear", mkIngredient 3 4%float)] in
  emit_detections_step ["apple"; "pear"; "kiwi"] catalog (mkGlobals false counts) 5%float []
  = (mkGlobals false counts,
     Emitted [Msg.mk "kiwi" 1 (VInt 0);
              Msg.mk "apple" 2 (VFloat 0.5%float);
              Msg.mk "pear" 3 (VInt 0)]).
Proof. reflexivity. Qed.

(** ** Detections that all resolve *)

Lemma process_detections_resolved labels current_time dets d :
  all_resolve labels dets ->
  snd (process_detections labels current_time dets d) = None.
Proof.
  revert d. induction dets as [| det dets IH]; intros d Hall; [reflexivity |].
  simpl. destruct (Hall det (or_introl eq_refl)) as [label ->].
  apply IH. intros det' Hin. apply Hall. now right.
Qed.

(** ** The counts over a run of events *)

Section Reachable.

Variable labels : list string.
Variable PRODUCTS : Py.value.

Local Abbreviation counts s := (detected_ingredients (vars s)).

(** The globals an iteration leaves, whatever its outcome. *)
Lemma emit_detections_step_vars g current_time dets :
  fst (emit_detections_step labels PRODUCTS g current_time dets) =
  if detection_active g
  then mkGlobals true (fst (process_detections labels current_time dets (detected_ingredients g)))
  else g.
Proof.
  unfold emit_detections_step. destruct (detection_active g).
  - destruct (process_detections labels current_time dets (detected_ingredients g))
      as [d [e |]]; simpl; [reflexivity |].
    destruct (data_list_active PRODUCTS d); reflexivity.
  - destruct (data_list_stopped PRODUCTS (detected_ingredients g)); reflexivity.
Qed.

Lemma step_tick_vars s current_time dets :
  vars (step labels PRODUCTS s (tick current_time dets)) =
  match emitter s with
  | Some _ => vars s
  | None => fst (emit_detections_step labels PRODUCTS (vars s) current_time dets)
  end.
Proof.
  simpl. destruct (emitter s); [reflexivity |].
  destruct (emit_detections_step labels PRODUCTS (vars s) current_time dets) as [g [m | e]];
    reflexivity.
Qed.

(** An event other than a start changes the counts only through
    [count_label]: what [count_label] keeps, such an event keeps. *)
Lemma step_preserves (P : Py.dict ingredient -> Prop) s ev :
  (forall t d label, P d -> P (count_label t d label)) ->
  is_start ev = false ->
  P (counts s) -> P (counts (step labels PRODUCTS s ev)).
Proof.
  intros Hcount Hev HP. destruct ev as [| | current_time dets]; [discriminate | exact HP |].
  rewrite step_tick_vars. destruct (emitter s); [exact HP |].
  rewrite emit_detections_step_vars. destruct (detection_active (vars s)); [| exact HP].
  simpl. apply process_detections_preserves; auto.
Qed.

Lemma run_cons s ev evs :
  run labels PRODUCTS s (ev :: evs) = run labels PRODUCTS (step labels PRODUCTS s ev) evs.
Proof. reflexivity. Qed.





End Reachable.

(** ** The box of a [Detection] *)

Module ClampFacts.

Lemma digits2_pos_bound (m : positive) : Zpos m < 2 ^ Zpos (digits2_pos m).
Proof.
  induction m as [m IH | m IH |]; simpl digits2_pos.
  - rewrite Pos2Z.inj_succ, Z.pow_succ_r by lia. lia.
  - rewrite Pos2Z.inj_succ, Z.pow_succ_r by lia. lia.
  - reflexivity.
Qed.

(** The mantissa of a binary64 number has at most 53 bits. *)
Lemma valid_mantissa (s : bool) (m : positive) (e : Z) :
  valid_binary (S754_finite s m e) = true -> Zpos m < 2 ^ 53.
Proof.
  unfold valid_binary, bounded, canonical_mantissa, fexp.
  intros H. apply andb_prop in H as [H _]. apply Z.eqb_eq in H.
  unfold prec in H. change IntDef.Z.max with Z.max in H.
  pose proof (digits2_pos_bound m) as Hm.
  assert (Zpos (digits2_pos m) <= 53) as Hd by lia.
  eapply Z.lt_le_trans; [exact Hm |].
  apply Z.pow_le_mono_r; lia.
Qed.

(** Truncating a positive float that is not above an integer constant
    [bound] gives an integer between 0 and [bound]. The constant enters by
    its binary64 form [mb * 2^eb], a normal number with a negative exponent,
    as 480 and 640 are. *)
Lemma int_of_float_range (B f : float) (mb : positive) (eb bound : Z) :
  Prim2SF B = S754_finite false mb eb ->
  eb < 0 -> Zpos mb = bound * 2 ^ (- eb) -> 2 ^ 52 <= Zpos mb ->
  (0 <? f)%float = true -> (B <? f)%float = false ->
  exists z, Py.int_of_float f = Ok z /\ 0 <= z <= bound.
Proof.
  intros HB Heb Hmb Hnormal Hpos Hle.
  rewrite ltb_spec in Hpos, Hle. rewrite HB in Hle.
  change (Prim2SF 0%float) with (S754_zero false) in Hpos.
  pose proof (Prim2SF_valid f) as Hvalid.
  unfold Py.int_of_float.
  destruct (Prim2SF f) as [s | s | | s m e]; try discriminate.
  - destruct s; discriminate.
  - destruct s; [discriminate |].
    apply valid_mantissa in Hvalid.
    unfold SFltb, SFcompare in Hle.
    assert (0 < 2 ^ (- eb)) as HQ by (apply Z.pow_pos_nonneg; lia).
    assert (0 < bound) as Hbound by nia.
    destruct (Z.compare_spec eb e) as [Heq | Hlt | Hgt]; [| discriminate |].
    + subst e. rewrite Pos.compare_cont_spec in Hle. simpl in Hle.
      assert (Zpos m <= Zpos mb) as Hm.
      { destruct (Pos.compare_spec mb m); try discriminate; lia. }
      destruct (0 <=? eb) eqn:E; [apply Z.leb_le in E; lia |].
      eexists. split; [reflexivity |]. split.
      * apply Z.div_pos; lia.
      * apply Z.div_le_upper_bound; lia.
    + destruct (0 <=? e) eqn:E; [apply Z.leb_le in E; lia |].
      assert (0 < 2 ^ (- e)) as HP by (apply Z.pow_pos_nonneg; lia).
      assert (2 * 2 ^ (- eb) <= 2 ^ (- e)) as Hpow.
      { rewrite <- Z.pow_succ_r by lia. apply Z.pow_le_mono_r; lia. }
      eexists. split; [reflexivity |]. split.
      * apply Z.div_pos; lia.
      * apply Z.div_le_upper_bound; [lia |].
        change (2 ^ 53) with (2 * 2 ^ 52) in Hvalid. nia.
Qed.

(** [int(max(0, min(val, bound)))] for the two bounds of the frame. *)
Lemma clamp_range (i : nat) (val : Py.num) :
  exists z,
    Py.int (Py.max (NInt 0) (Py.min val (NInt (frame_bound i)))) = Ok z /\
    0 <= z <= frame_bound i.
Proof.
  assert (0 < frame_bound i) as Hb by (unfold frame_bound; destruct (Nat.even i); lia).
  destruct val as [v | f]; unfold Py.min, Py.max, Py.lt.
  - destruct (frame_bound i <? v) eqn:E1.
    + destruct (0 <? frame_bound i) eqn:E2; simpl; eexists; split; try reflexivity; lia.
    + apply Z.ltb_ge in E1.
      destruct (0 <? v) eqn:E2; simpl; eexists; split; try reflexivity; lia.
  - destruct (float_of_Z (frame_bound i) <? f)%float eqn:E1.
    + destruct (0 <? frame_bound i) eqn:E2; simpl; eexists; split; try reflexivity; lia.
    + change (float_of_Z 0) with 0%float.
      destruct (0 <? f)%float eqn:E2; simpl; [| eexists; split; [reflexivity | lia]].
      unfold frame_bound in *. destruct (Nat.even i).
      * apply (int_of_float_range (float_of_Z 640) f 5629499534213120 (-43) 640);
          auto; reflexivity || lia.
      * apply (int_of_float_range (float_of_Z 480) f 8444249301319680 (-44) 480);
          auto; reflexivity || lia.
Qed.

(** The comprehension of the primary path never raises and puts every
    component inside the frame. *)
Lemma clamp_box_in_frame (vals : list Py.num) (i : nat) :
  exists b,
    clamp_box i vals = Ok b /\
    List.length b = List.length vals /\
    forall j z, nth_error b j = Some z -> 0 <= z <= frame_bound (i + j).
Proof.
  revert i. induction vals as [| val vals IH]; intros i; simpl.
  - exists []. split; [reflexivity |]. split; [reflexivity |].
    intros [| j] z; discriminate.
  - destruct (clamp_range i val) as (z0 & -> & Hz0).
    destruct (IH (S i)) as (b & -> & Hlen & Hb). simpl.
    exists (z0 :: b). split; [reflexivity |]. split; [simpl; lia |].
    intros [| j] z H; simpl in H.
    + injection H as <-. now rewrite Nat.add_0_r.
    + apply Hb in H. now rewrite Nat.add_succ_r.
Qed.

End ClampFacts.

(** X4. The primary path of the constructor: whatever numbers the conversion
    returns, the detection is built and every component of its box is an
    integer inside the frame, [0, 640] at even and [0, 480] at odd indices. *)
Theorem Detection_init_primary_in_frame
    (converted coords : list Py.num) (category : Py.num) (conf : float) :
  exists b,
    Detection_init (Ok converted) coords category conf = Ok (mkDetection category conf b) /\
    List.length b = List.length converted /\
    forall j z, nth_error b j = Some z -> 0 <= z <= frame_bound j.
Proof.
  destruct (ClampFacts.clamp_box_in_frame converted 0) as (b & Hb & Hlen & Hrange).
  exists b. unfold Detection_init. simpl. rewrite Hb. auto.
Qed.

(** A detection whose raw coordinates include a nan, on the fallback path:
    the constructor raises and [pre_callback] goes on without it. *)
Example example_nan_coordinate_skipped :
  pre_callback_detections 0.5%float
    [([NFloat nan; NFloat 0.5%float; NFloat 0.5%float; NFloat 0.5%float],
      0.75%float, NInt 0, Raise ConversionError);
     ([NFloat 0.25%float; NFloat 0.5%float; NFloat 0.5%float; NFloat 0.5%float],
      0.75%float, NInt 1, Raise ConversionError);
     ([NFloat 0.25%float; NFloat 0.5%float; NFloat 0.5%float; NFloat 0.5%float],
      0.25%float, NInt 1, Raise ConversionError)]
  = [mkDetection (NInt 1) 0.75%float [160; 240; 320; 240]].
Proof. reflexivity. Qed.

(** ** C6: the box on the fallback path *)

(** C6. The constructor on the coordinates the test mode passes,
    [[100, 100, 200, 150]], when the conversion raises: the fallback scales
    them by 640 and 480 and stores [[64000, 48000, 128000, 72000]], far
    outside the 640x480 frame. Raw coordinates just outside [0, 1] give
    components that are negative or beyond the frame in the same way. On
    the same coordinates the primary path stays inside the frame. *)
Theorem fallback_box_leaves_frame :
  let conf := 0.75%float in
  Detection_init (Raise ConversionError) [NInt 100; NInt 100; NInt 200; NInt 150]
      (NInt 0) conf
    = Ok (mkDetection (NInt 0) conf [64000; 48000; 128000; 72000]) /\
  Detection_init (Raise ConversionError)
      [NFloat 1.5%float; NFloat (-0.25)%float; NFloat 0.5%float; NFloat 0.5%float]
      (NInt 0) conf
    = Ok (mkDetection (NInt 0) conf [960; -120; 320; 240]) /\
  Detection_init (Ok [NInt 100; NInt 100; NInt 2000; NInt (-150)])
      [NInt 100; NInt 100; NInt 200; NInt 150] (NInt 0) conf
    = Ok (mkDetection (NInt 0) conf [100; 100; 640; 0]).
Proof. repeat split. Qed.

(** ** Indexing the labels *)

Section Index.

Context {A : Type}.
Variable l : list A.

Lemma index_out_of_range (i : Z) :
  i >= Z.of_nat (List.length l) \/ i < - Z.of_nat (List.length l) ->
  Py.index l i = Raise IndexError.
Proof.
  intros H. unfold Py.index.
  destruct (i <? 0) eqn:E.
  - apply Z.ltb_lt in E.
    destruct (0 <=? i + Z.of_nat (List.length l)) eqn:E1; [| reflexivity].
    apply Z.leb_le in E1. lia.
  - apply Z.ltb_ge in E.
    destruct (i <? Z.of_nat (List.length l)) eqn:E1; [| now rewrite andb_false_r].
    apply Z.ltb_lt in E1. lia.
Qed.

Lemma index_in_range (i : Z) :
  0 <= i < Z.of_nat (List.length l) ->
  exists x, nth_error l (Z.to_nat i) = Some x /\ Py.index l i = Ok x.
Proof.
  intros H. unfold Py.index.
  destruct (i <? 0) eqn:E; [apply Z.ltb_lt in E; lia |].
  destruct (nth_error l (Z.to_nat i)) as [x |] eqn:Hnth.
  - exists x. split; [reflexivity |].
    replace (0 <=? i) with true by (symmetry; apply Z.leb_le; lia).
    replace (i <? Z.of_nat (List.length l)) with true by (symmetry; apply Z.ltb_lt; lia).
    reflexivity.
  - apply nth_error_None in Hnth. lia.
Qed.

(** A negative index within reach counts from the end. *)
Lemma index_negative (i : Z) :
  - Z.of_nat (List.length l) <= i < 0 ->
  exists x, nth_error l (Z.to_nat (i + Z.of_nat (List.length l))) = Some x /\
            Py.index l i = Ok x.
Proof.
  intros H.
  destruct (index_in_range (i + Z.of_nat (List.length l))) as (x & Hnth & Hidx); [lia |].
  exists x. split; [assumption |].
  unfold Py.index in *.
  destruct (i <? 0) eqn:E; [| apply Z.ltb_ge in E; lia].
  destruct (i + Z.of_nat (List.length l) <? 0) eqn:E1; [apply Z.ltb_lt in E1; lia |].
  exact Hidx.
Qed.

End Index.

Section Abort.

Variable labels : list string.

Lemma process_detections_all_resolve current_time dets d :
  all_resolve labels dets ->
  process_detections labels current_time dets d =
  (fst (process_detections labels current_time dets d), None).
Proof.
  intros H. rewrite <- (process_detections_resolved labels current_time dets d H).
  now destruct (process_detections labels current_time dets d).
Qed.

(** The counting loop stops at the first detection whose label lookup raises. *)
Lemma process_detections_raise current_time pre det post d e :
  all_resolve labels pre -> label_of labels det = Raise e ->
  process_detections labels current_time (pre ++ det :: post) d =
  (fst (process_detections labels current_time pre d), Some e).
Proof.
  intros Hpre Hdet. rewrite process_detections_app.
  rewrite (process_detections_all_resolve current_time pre d Hpre).
  simpl. now rewrite Hdet.
Qed.

Lemma draw_detections_app cv2 dets1 dets2 array :
  draw_detections cv2 labels (dets1 ++ dets2) array =
  match draw_detections cv2 labels dets1 array with
  | (array1, None) => draw_detections cv2 labels dets2 array1
  | (array1, Some e) => (array1, Some e)
  end.
Proof.
  revert array. induction dets1 as [| det dets1 IH]; intros array; simpl; auto.
  destruct (box det) as [| x [| y [| w [| h [| ? ?]]]]]; auto.
  destruct (label_of labels det); auto.
  destruct (cv2 (putText _ _ _ _)); auto.
  destruct (cv2 (rectangle _ _ _ _)); auto.
Qed.

(** Once the emitter has ended, iterations no longer happen. *)
Lemma ended_emitter PRODUCTS s e evs :
  emitter s = Some e -> forallb is_tick evs = true -> run labels PRODUCTS s evs = s.
Proof.
  intros He. induction evs as [| ev evs IH]; [reflexivity |].
  simpl. intros H. apply andb_prop in H as [Hev Hevs].
  destruct ev; try discriminate. simpl. rewrite He. now apply IH.
Qed.

End Abort.

(** * Further properties of the code *)

(** ** The constructor and the first loop of [pre_callback] *)

Section Constructor.

Lemma scale_box_app (i : nat) (pre post : list Py.num) :
  scale_box i (pre ++ post) =
  (b1 <- scale_box i pre ;;
   b2 <- scale_box (i + List.length pre) post ;;
   Ok (b1 ++ b2)).
Proof.
  revert i. induction pre as [| val pre IH]; intros i; simpl.
  - rewrite Nat.add_0_r. now destruct (scale_box i post).
  - destruct (Py.int (Py.mul val (NInt (frame_bound i)))) as [z | e]; simpl; [| reflexivity].
    rewrite IH. rewrite Nat.add_succ_r. simpl.
    destruct (scale_box (S i) pre) as [b1 | e]; simpl; [| reflexivity].
    now destruct (scale_box (S (i + List.length pre)) post).
Qed.

Lemma scale_box_length (i : nat) (coords : list Py.num) (b : list Z) :
  scale_box i coords = Ok b -> List.length b = List.length coords.
Proof.
  revert i b. induction coords as [| val coords IH]; intros i b; simpl.
  - intros [= <-]. reflexivity.
  - destruct (Py.int _) as [z | e]; simpl; [| discriminate].
    destruct (scale_box (S i) coords) as [b' | e] eqn:E; simpl; [| discriminate].
    intros [= <-]. simpl. f_equal. eauto.
Qed.

(** The binary64 form of the two frame bounds. *)
Lemma frame_bound_float (i : nat) :
  exists m e, Prim2SF (float_of_Z (frame_bound i)) = S754_finite false m e.
Proof.
  unfold frame_bound. destruct (Nat.even i); do 2 eexists; reflexivity.
Qed.

(** Scaling a nan gives a nan, scaling an infinity an infinity: [int]
    rejects both. *)
Lemma scale_nonfinite (i : nat) (f : float) :
  (Prim2SF f = S754_nan ->
     Py.int (Py.mul (NFloat f) (NInt (frame_bound i))) = Raise ValueError) /\
  (forall s, Prim2SF f = S754_infinity s ->
     Py.int (Py.mul (NFloat f) (NInt (frame_bound i))) = Raise OverflowError).
Proof.
  destruct (frame_bound_float i) as (m & e & HB).
  unfold Py.int, Py.mul, Py.int_of_float.
  split; [intros Hf | intros s Hf]; rewrite mul_spec, Hf, HB; reflexivity.
Qed.

Lemma scale_box_nonfinite (i : nat) (f : float) (rest : list Py.num) :
  (Prim2SF f = S754_nan -> scale_box i (NFloat f :: rest) = Raise ValueError) /\
  (forall s, Prim2SF f = S754_infinity s ->
     scale_box i (NFloat f :: rest) = Raise OverflowError).
Proof.
  destruct (scale_nonfinite i f) as [Hnan Hinf].
  split; [intros Hf | intros s Hf]; cbn [scale_box];
    [rewrite (Hnan Hf) | rewrite (Hinf s Hf)]; reflexivity.
Qed.

Lemma pre_callback_detections_app threshold outs1 outs2 :
  pre_callback_detections threshold (outs1 ++ outs2) =
  pre_callback_detections threshold outs1 ++ pre_callback_detections threshold outs2.
Proof.
  induction outs1 as [| [[[b s] c] conv] outs1 IH]; simpl; [reflexivity |].
  destruct (threshold <=? s)%float; [| exact IH].
  destruct (Detection_init conv b c s); [| exact IH].
  simpl. now rewrite IH.
Qed.

End Constructor.

(** X1. On the fallback path a raw coordinate that is a nan makes the
    constructor raise [ValueError] and one that is an infinity
    [OverflowError], once the coordinates before it have been scaled; the
    first loop of [pre_callback] then goes on without that detection and
    keeps the ones around it. *)
Theorem fallback_nonfinite_coordinate
    (e0 : Py.exn) (pre rest : list Py.num) (f : float)
    (category : Py.num) (score : float) :
  (exists b, scale_box 0 pre = Ok b) ->
  Prim2SF f = S754_nan \/ (exists s, Prim2SF f = S754_infinity s) ->
  (exists e, Detection_init (Raise e0) (pre ++ NFloat f :: rest) category score = Raise e /\
             (Prim2SF f = S754_nan -> e = ValueError) /\
             ((exists s, Prim2SF f = S754_infinity s) -> e = OverflowError)) /\
  forall threshold outs1 outs2,
    pre_callback_detections threshold
      (outs1 ++ (pre ++ NFloat f :: rest, score, category, Raise e0) :: outs2)
    = pre_callback_detections threshold (outs1 ++ outs2).
Proof.
  intros [b Hpre] Hf.
  destruct (scale_box_nonfinite (0 + List.length pre) f rest) as [Hnan Hinf].
  assert (exists e, Detection_init (Raise e0) (pre ++ NFloat f :: rest) category score = Raise e /\
             (Prim2SF f = S754_nan -> e = ValueError) /\
             ((exists s, Prim2SF f = S754_infinity s) -> e = OverflowError)) as Hinit.
  { unfold Detection_init. cbn [Py.bind]. rewrite scale_box_app, Hpre. cbn [Py.bind].
    destruct Hf as [Hf | [s Hf]].
    - rewrite (Hnan Hf). exists ValueError.
      split; [reflexivity |]. split; [reflexivity |]. intros [s Hs]. congruence.
    - rewrite (Hinf s Hf). exists OverflowError.
      split; [reflexivity |]. split; [congruence | reflexivity]. }
  split; [exact Hinit |].
  intros threshold outs1 outs2. destruct Hinit as (e & He & _).
  rewrite !pre_callback_detections_app. f_equal. simpl.
  rewrite He. now destruct (threshold <=? score)%float.
Qed.

Lemma fallback_nonfinite_coordinate_witness :
  (exists b, scale_box 0 [NFloat 0.5%float] = Ok b) /\
  Prim2SF infinity = S754_infinity false /\
  Detection_init (Raise ConversionError)
    ([NFloat 0.5%float] ++ NFloat infinity :: [NFloat 0.5%float; NFloat 0.5%float])
    (NInt 0) 0.75%float = Raise OverflowError.
Proof.
  assert (exists b, scale_box 0 [NFloat 0.5%float] = Ok b) as Hpre
    by (eexists; reflexivity).
  split; [exact Hpre |]. split; [reflexivity |].
  destruct (fallback_nonfinite_coordinate ConversionError [NFloat 0.5%float]
              [NFloat 0.5%float; NFloat 0.5%float] infinity (NInt 0) 0.75%float
              Hpre (or_intror (ex_intro _ false eq_refl)))
    as ((e & He & _ & Hinf) & _).
  rewrite He. f_equal. apply Hinf. now exists false.
Defined.

(** A converted box whose components are each within bounds is stored as
    it is, although its right and bottom edges are outside the frame. *)
Example example_box_beyond_frame :
  pre_callback_detections 0.5%float
    [([NFloat 0.25%float], 0.75%float, NInt 0,
      Ok [NInt 600; NInt 400; NInt 600; NInt 400])]
  = [mkDetection (NInt 0) 0.75%float [600; 400; 600; 400]].
Proof. reflexivity. Qed.

(** X2. Every detection [pre_callback] keeps has a score that passed
    [score >= args.threshold] (so a nan score never passes), was built by
    the constructor from one of the zipped triples with that triple's score
    and category, and the detections kept are at most as many as the
    triples. *)
Theorem pre_callback_detections_sound
    (threshold : float)
    (outs : list (list Py.num * float * Py.num * result (list Py.num))) :
  (forall det, In det (pre_callback_detections threshold outs) ->
     (threshold <=? conf det)%float = true /\
     exists b conv,
       In (b, conf det, category det, conv) outs /\
       Detection_init conv b (category det) (conf det) = Ok det) /\
  (List.length (pre_callback_detections threshold outs) <= List.length outs)%nat.
Proof.
  induction outs as [| [[[b s] c] conv] outs [IH1 IH2]]; simpl.
  - split; [contradiction | lia].
  - assert (forall det, In det (pre_callback_detections threshold outs) ->
              (threshold <=? conf det)%float = true /\
              exists b0 conv0,
                ((b, s, c, conv) = (b0, conf det, category det, conv0) \/
                 In (b0, conf det, category det, conv0) outs) /\
                Detection_init conv0 b0 (category det) (conf det) = Ok det) as IH1'.
    { intros det Hin. destruct (IH1 det Hin) as (H & b0 & conv0 & H1 & H2). eauto 8. }
    destruct (threshold <=? s)%float eqn:Hs; [| split; [exact IH1' | lia]].
    destruct (Detection_init conv b c s) as [det0 |] eqn:Hinit;
      [| split; [exact IH1' | lia]].
    split; [| simpl; lia].
    intros det [<- | Hin]; [| now apply IH1'].
    assert (category det0 = c /\ conf det0 = s) as [Hc Hconf].
    { unfold Detection_init in Hinit.
      destruct (b0 <- conv ;; clamp_box 0 b0) as [b1 | e1].
      - injection Hinit as <-. now split.
      - destruct (scale_box 0 b) as [b1 | e2]; simpl in Hinit; [| discriminate].
        injection Hinit as <-. now split. }
    rewrite Hc, Hconf. split; [exact Hs |]. exists b, conv. split; [now left | assumption].
Qed.

(** X3. When the conversion succeeds on every triple, [pre_callback] keeps
    exactly the triples whose score reaches the threshold, in their order,
    each with its score and category, and every component of every box it
    stores is clamped to its own bound: between 0 and 640 at even indices
    (x and width), between 0 and 480 at odd ones (y and height). The clamp
    is per component: the sum of x and width may go beyond the frame. *)
Theorem pre_callback_detections_converted
    (threshold : float)
    (outs : list (list Py.num * float * Py.num * result (list Py.num))) :
  (forall out, In out outs -> exists vals, snd out = Ok vals) ->
  map (fun det => (conf det, category det)) (pre_callback_detections threshold outs)
    = map (fun out => (snd (fst (fst out)), snd (fst out)))
          (filter (fun out => (threshold <=? snd (fst (fst out)))%float) outs) /\
  forall det, In det (pre_callback_detections threshold outs) -> components_bounded (box det).
Proof.
  induction outs as [| [[[b s] c] conv] outs IH]; intros Hconv; simpl.
  - split; [reflexivity | contradiction].
  - destruct IH as [IH1 IH2]; [intros out Hin; apply Hconv; now right |].
    destruct (threshold <=? s)%float; [| now split].
    destruct (Hconv (b, s, c, conv) (or_introl eq_refl)) as [vals Hvals].
    simpl in Hvals. subst conv.
    destruct (ClampFacts.clamp_box_in_frame vals 0) as (bx & Hbx & _ & Hrange).
    unfold Detection_init. simpl. rewrite Hbx. simpl.
    split; [now rewrite IH1 |].
    intros det [<- | Hin]; [exact Hrange | now apply IH2].
Qed.

Lemma pre_callback_detections_converted_witness :
  let outs := [([NFloat 0.25%float], 0.75%float, NInt 0, Ok [NInt 700; NInt (-3)]);
               ([NFloat 0.25%float], 0.25%float, NInt 1, Ok [NInt 5; NInt 5])] in
  (forall out, In out outs -> exists vals, snd out = Ok vals) /\
  map (fun det => (conf det, category det)) (pre_callback_detections 0.5%float outs)
    = [(0.75%float, NInt 0)].
Proof.
  intros outs.
  assert (forall out, In out outs -> exists vals, snd out = Ok vals) as H.
  { intros out [<- | [<- | []]]; eexists; reflexivity. }
  split; [exact H |].
  destruct (pre_callback_detections_converted 0.5%float outs H) as [Hmap _].
  exact Hmap.
Defined.

(** ** The drawing block of [pre_callback] *)

Section Drawing.

Variable cv2 : draw_op -> option Py.exn.
Variable labels : list string.

Lemma draw_detections_drawable dets array :
  Forall (drawable cv2 labels) dets ->
  draw_detections cv2 labels dets array = (array ++ flat_map (drawn labels) dets, None).
Proof.
  intros Hall. revert array. induction Hall as [| det dets Hdet _ IH]; intros array; simpl.
  - now rewrite app_nil_r.
  - destruct Hdet as (x & y & w & h & name & Hbox & Hname & Htext & Hrect).
    unfold drawn at 1. rewrite Hbox, Hname, Htext, Hrect. rewrite IH.
    now rewrite <- app_assoc.
Qed.

Lemma drawn_length det :
  drawable cv2 labels det -> List.length (drawn labels det) = 2%nat.
Proof.
  intros (x & y & w & h & name & Hbox & Hname & _).
  unfold drawn. now rewrite Hbox, Hname.
Qed.

(** The array only grows: what was drawn stays, exception or not. *)
Lemma draw_detections_extends dets array :
  exists ops, fst (draw_detections cv2 labels dets array) = array ++ ops.
Proof.
  revert array. induction dets as [| det dets IH]; intros array; simpl.
  - exists []. now rewrite app_nil_r.
  - assert (exists ops, array = array ++ ops) as Hsame by (exists []; now rewrite app_nil_r).
    destruct (box det) as [| x [| y [| w [| h [| ? ?]]]]]; simpl; auto.
    destruct (label_of labels det) as [name | e]; simpl; auto.
    destruct (cv2 (putText name (conf det) (x + 5) (y + 15))); simpl; auto.
    destruct (cv2 (rectangle x y (x + w) (y + h))); simpl; [eauto |].
    destruct (IH (array ++ [putText name (conf det) (x + 5) (y + 15);
                            rectangle x y (x + w) (y + h)])) as [ops Hops].
    rewrite Hops, <- app_assoc. eauto.
Qed.

(** A box that does not unpack into four values stops the pass before the
    label is looked up. *)
Lemma draw_detections_unpack det rest array :
  List.length (box det) <> 4%nat ->
  draw_detections cv2 labels (det :: rest) array = (array, Some ValueError).
Proof.
  intros Hlen. simpl.
  destruct (box det) as [| x [| y [| w [| h [| ? ?]]]]]; try reflexivity.
  simpl in Hlen. congruence.
Qed.

End Drawing.

(** X5. When every detection has four box components, a category the
    labels resolve and coordinates that OpenCV accepts in both calls, the
    drawing pass raises nothing and writes, after what the array held, one
    text and one rectangle per detection in the order of the detections; the
    frame is then queued behind the frames already there, unless the queue
    is full. *)
Theorem drawing_pass_complete
    (cv2 : draw_op -> option Py.exn)
    (labels : list string) (detections : list Detection)
    (array : list draw_op) (q : Queue.t (list draw_op)) :
  Forall (drawable cv2 labels) detections ->
  let frame := array ++ flat_map (drawn labels) detections in
  draw_detections cv2 labels detections array = (frame, None) /\
  List.length frame = (List.length array + 2 * List.length detections)%nat /\
  pre_callback_draw cv2 labels detections array q =
    Some (if Queue.full q then q
          else Queue.mk (Queue.maxsize q) (Queue.items q ++ [frame]), None).
Proof.
  intros Hall. cbv zeta.
  pose proof (draw_detections_drawable cv2 labels detections array Hall) as Hdraw.
  split; [exact Hdraw |]. split.
  - rewrite length_app. f_equal. clear Hdraw.
    induction Hall as [| det dets Hdet _ IH]; [reflexivity |].
    simpl. rewrite length_app, IH, (drawn_length cv2 labels det Hdet). lia.
  - unfold pre_callback_draw. rewrite Hdraw, push_frame_spec.
    now destruct (Queue.full q).
Qed.

Lemma drawing_pass_complete_witness :
  let apple := mkDetection (NInt 0) 0.75%float [100; 100; 200; 150] in
  Forall (drawable cv2_c_int ["apple"]) [apple] /\
  pre_callback_draw cv2_c_int ["apple"] [apple] [] frame_queue =
    Some (Queue.mk 10 [[putText "apple" 0.75%float 105 115;
                        rectangle 100 100 300 250]], None).
Proof.
  intros apple.
  assert (Forall (drawable cv2_c_int ["apple"]) [apple]) as H.
  { repeat constructor. exists 100, 100, 200, 150, "apple". repeat split. }
  split; [exact H |].
  destruct (drawing_pass_complete cv2_c_int ["apple"] [apple] [] frame_queue H)
    as (_ & _ & Hq).
  exact Hq.
Defined.

(** A fallback box with a coordinate beyond a C int: the text is refused,
    nothing is drawn and the frame is not queued. *)
Example example_coordinate_beyond_c_int :
  let det := mkDetection (NInt 0) 0.75%float [6400000000; 240; 320; 240] in
  pre_callback_draw cv2_c_int ["apple"] [det] [] frame_queue
  = Some (frame_queue, Some Cv2Error).
Proof. reflexivity. Qed.

(** X6. The drawing block never waits on the queue. Whatever the
    detections, the array keeps what it held and what was drawn before an
    exception; the frames already queued stay where they are, at most one
    frame is added behind them, and when the pass raises the queue is left
    as it was. *)
Theorem drawing_pass_never_blocks
    (cv2 : draw_op -> option Py.exn)
    (labels : list string) (detections : list Detection)
    (array : list draw_op) (q : Queue.t (list draw_op)) :
  (exists ops, fst (draw_detections cv2 labels detections array) = array ++ ops) /\
  exists q' raised added,
    pre_callback_draw cv2 labels detections array q = Some (q', raised) /\
    Queue.items q' = Queue.items q ++ added /\
    (List.length added <= 1)%nat /\
    (raised <> None -> q' = q).
Proof.
  split; [apply draw_detections_extends |].
  unfold pre_callback_draw.
  destruct (draw_detections cv2 labels detections array) as [array' [e |]].
  - exists q, (Some e), []. rewrite app_nil_r.
    split; [reflexivity |]. split; [reflexivity |]. split; [simpl; lia | reflexivity].
  - rewrite push_frame_spec. destruct (Queue.full q).
    + exists q, None, []. rewrite app_nil_r.
      split; [reflexivity |]. split; [reflexivity |]. split; [simpl; lia | congruence].
    + eexists _, None, [array'].
      split; [reflexivity |]. split; [reflexivity |]. split; [simpl; lia | congruence].
Qed.

(** X7. A detection whose box does not have exactly four components stops
    the drawing pass with [ValueError], before its label is looked up, and
    the frame is not queued. The fallback path of the constructor builds
    such a detection from any coordinate list of another length, since its
    box has as many components as the raw coordinates. *)
Theorem drawing_pass_box_length (cv2 : draw_op -> option Py.exn) (labels : list string) :
  (forall pre det post array q,
     Forall (drawable cv2 labels) pre ->
     List.length (box det) <> 4%nat ->
     pre_callback_draw cv2 labels (pre ++ det :: post) array q
     = Some (q, Some ValueError)) /\
  (forall e coords category score det,
     Detection_init (Raise e) coords category score = Ok det ->
     List.length (box det) = List.length coords).
Proof.
  split.
  - intros pre det post array q Hpre Hlen.
    unfold pre_callback_draw.
    rewrite draw_detections_app, (draw_detections_drawable cv2 labels pre array Hpre).
    now rewrite (draw_detections_unpack cv2 labels det post _ Hlen).
  - intros e coords category score det. unfold Detection_init. simpl.
    destruct (scale_box 0 coords) as [b |] eqn:Hb; simpl; [| discriminate].
    intros [= <-]. simpl. now apply scale_box_length in Hb.
Qed.

(** Three raw coordinates and a failed conversion: the detection is built
    with a three-component box and the drawing pass raises on it, although
    its category is in the catalog. *)
Example example_three_coordinates :
  match Detection_init (Raise ConversionError)
          [NFloat 0.5%float; NFloat 0.5%float; NFloat 0.25%float] (NInt 0) 0.75%float with
  | Ok det => pre_callback_draw cv2_c_int ["apple"] [det] [] frame_queue
  | Raise _ => None
  end = Some (frame_queue, Some ValueError).
Proof. reflexivity. Qed.

(** ** [pre_callback] with nothing to draw *)

Lemma pre_callback_detections_below threshold outs :
  (forall out, In out outs -> (threshold <=? snd (fst (fst out)))%float = false) ->
  pre_callback_detections threshold outs = [].
Proof.
  induction outs as [| [[[b s] c] conv] outs IH]; intros H; simpl; [reflexivity |].
  pose proof (H (b, s, c, conv) (or_introl eq_refl)) as Hs. simpl in Hs. rewrite Hs.
  apply IH. intros out Hin. apply H. now right.
Qed.

Lemma zip_outputs_score convert boxes scores classes out :
  In out (zip_outputs convert boxes scores classes) -> In (snd (fst (fst out))) scores.
Proof.
  unfold zip_outputs. rewrite in_map_iff. intros ([[b s] c] & <- & Hin). simpl.
  apply in_combine_l in Hin. now apply in_combine_r in Hin.
Qed.

(** X8. When the network gives no output, or no score reaches the
    threshold (a nan score never does), [pre_callback] publishes an empty
    detection list and queues the frame as it came, without drawing and
    without raising; with a full queue the frame is dropped. *)
Theorem pre_callback_nothing_detected
    (cv2 : draw_op -> option Py.exn)
    (threshold : float) (labels : list string)
    (convert : list Py.num -> result (list Py.num))
    (boxes : list (list Py.num)) (scores : list float) (classes : list Py.num)
    (array : list draw_op) (q : Queue.t (list draw_op)) :
  let queued := if Queue.full q then q
                else Queue.mk (Queue.maxsize q) (Queue.items q ++ [array]) in
  pre_callback cv2 threshold labels convert None array q = ([], Some (queued, None)) /\
  (Forall (fun s => (threshold <=? s)%float = false) scores ->
   pre_callback cv2 threshold labels convert (Some (boxes, scores, classes)) array q
     = ([], Some (queued, None))).
Proof.
  assert (pre_callback_draw cv2 labels [] array q
          = Some (if Queue.full q then q
                  else Queue.mk (Queue.maxsize q) (Queue.items q ++ [array]), None)) as Hdraw.
  { unfold pre_callback_draw. simpl. rewrite push_frame_spec. now destruct (Queue.full q). }
  split.
  - unfold pre_callback. now rewrite Hdraw.
  - intros Hlow. unfold pre_callback.
    rewrite pre_callback_detections_below; [now rewrite Hdraw |].
    intros out Hin. apply zip_outputs_score in Hin.
    rewrite Forall_forall in Hlow. now apply Hlow.
Qed.

(** ** The frame queue between [pre_callback] and [generate_frames] *)

Section Stream.

Context {A : Type}.
Implicit Types (st : stream A) (ops : list (queue_op A)).

Lemma subsequence_refl (l : list A) : subsequence l l.
Proof. induction l; constructor; assumption. Qed.

Lemma subsequence_nil_l (l : list A) : subsequence [] l.
Proof. induction l; constructor; assumption. Qed.

Lemma stream_run_spec (client : nat) ops st :
  only_client client ops = true ->
  stream_ok client st ->
  exists st' taken served,
    stream_run st ops = Some st' /\
    Queue.maxsize (queue st') = Queue.maxsize (queue st) /\
    stream_ok client st' /\
    enqueued st' = enqueued st ++ taken /\
    subsequence taken (pushed ops) /\
    yielded st' = yielded st ++ served /\
    (List.length served <= consumer_steps ops)%nat.
Proof.
  revert st. induction ops as [| op ops IH]; intros [q waiting ys es] Hops Hok.
  - exists (mkStream q waiting ys es), [], []. simpl. rewrite !app_nil_r.
    repeat split; auto; try lia; try apply Hok. constructor.
  - simpl in Hops. apply andb_prop in Hops as [Hop Hops].
    destruct Hok as (Hmax & Hsize & Hinv & Hget). simpl in Hmax, Hsize, Hinv, Hget.
    destruct op as [frame | c]; cbn [stream_run stream_step queue at_get yielded enqueued].
    + rewrite push_frame_spec. destruct (Queue.full q) eqn:Hfull.
      * destruct (IH (mkStream q waiting ys es) Hops)
          as (st' & taken & served & Hrun & Hm & Hok' & He & Hsub & Hy & Hp).
        { repeat split; assumption. }
        exists st', taken, served. repeat split; auto; try apply Hok'. now constructor.
      * assert (Queue.qsize q < Queue.maxsize q) as Hroom.
        { unfold Queue.full in Hfull. apply andb_false_iff in Hfull.
          destruct Hfull as [H | H]; [apply Z.ltb_ge in H | apply Z.leb_gt in H]; lia. }
        destruct (IH (mkStream (Queue.mk (Queue.maxsize q) (Queue.items q ++ [frame]))
                        waiting ys (es ++ [frame])) Hops)
          as (st' & taken & served & Hrun & Hm & Hok' & He & Hsub & Hy & Hp).
        { repeat split; simpl.
          - assumption.
          - unfold Queue.qsize in *. simpl. rewrite length_app. simpl. lia.
          - now rewrite app_assoc, Hinv.
          - destruct Hget as [H | [H _]]; [now left | right].
            split; [assumption |]. now destruct (Queue.items q). }
        simpl in *. exists st', (frame :: taken), served. repeat split; auto; try apply Hok'.
        -- now rewrite He, <- app_assoc.
        -- now constructor.
    + apply Nat.eqb_eq in Hop. subst c.
      destruct Hget as [Hw | [Hw Hne]]; subst waiting; simpl.
      * destruct (Queue.empty q) eqn:Hempty.
        -- destruct (IH (mkStream q [] ys es) Hops)
             as (st' & taken & served & Hrun & Hm & Hok' & He & Hsub & Hy & Hp).
           { repeat split; simpl; auto. }
           exists st', taken, served. repeat split; auto; try apply Hok'.
        -- destruct (IH (mkStream q [client] ys es) Hops)
             as (st' & taken & served & Hrun & Hm & Hok' & He & Hsub & Hy & Hp).
           { repeat split; simpl; auto. right. split; [reflexivity |].
             unfold Queue.empty, Queue.qsize in Hempty. intros H. rewrite H in Hempty.
             discriminate. }
           exists st', taken, served. repeat split; auto; try apply Hok'.
      * rewrite Nat.eqb_refl. simpl. unfold Queue.get.
        destruct q as [n items]. simpl in *.
        destruct items as [| frame items]; [congruence |].
        destruct (Nat.eq_dec client client) as [_ | Hc]; [| congruence].
        destruct (IH (mkStream (Queue.mk n items) [] (ys ++ [frame]) es) Hops)
          as (st' & taken & served & Hrun & Hm & Hok' & He & Hsub & Hy & Hp).
        { repeat split; simpl; auto.
          - unfold Queue.qsize in *. simpl in *. lia.
          - now rewrite <- app_assoc. }
        simpl in *. exists st', taken, (frame :: served). repeat split; auto; try apply Hok'.
        -- now rewrite Hy, <- app_assoc.
        -- simpl. lia.
Qed.

End Stream.

(** X9. With a single [generate_frames] running (one client of
    [/video_feed]), from the empty frame queue and under any interleaving
    of pushes by [pre_callback] with that consumer's checks and gets: neither
    side ever waits inside the queue, because nothing takes a frame between
    the consumer's check and its [get]; the queue never holds more than 10
    frames; the frames yielded so far followed by the frames still queued
    are exactly the frames the queue took in, so frames leave in the order
    they came, none twice and none lost once queued; the frames taken in are
    pushed frames in push order; and at most one frame is yielded per
    consumer statement. *)
Theorem frame_queue_fifo {A : Type} (client : nat) (ops : list (queue_op A)) :
  only_client client ops = true ->
  exists st,
    stream_run (mkStream frame_queue [] [] []) ops = Some st /\
    Queue.qsize (queue st) <= 10 /\
    yielded st ++ Queue.items (queue st) = enqueued st /\
    subsequence (enqueued st) (pushed ops) /\
    (List.length (yielded st) <= consumer_steps ops)%nat.
Proof.
  intros Hops.
  destruct (stream_run_spec client ops (mkStream (@frame_queue A) [] [] []) Hops)
    as (st & taken & served & Hrun & Hm & Hok & He & Hsub & Hy & Hp).
  - repeat split; simpl; try lia; auto. unfold Queue.qsize. simpl. lia.
  - simpl in *. destruct Hok as (_ & Hsize & Hinv & _).
    exists st. repeat split; auto.
    + rewrite Hm in Hsize. exact Hsize.
    + now rewrite He.
    + now rewrite Hy.
Qed.

Lemma frame_queue_fifo_witness :
  let ops := [producer_push 1; producer_push 2; consumer_step 0; producer_push 3;
              consumer_step 0; consumer_step 0] in
  only_client 0 ops = true /\
  exists st,
    stream_run (mkStream frame_queue [] [] []) ops = Some st /\
    yielded st ++ Queue.items (queue st) = enqueued st.
Proof.
  intros ops. split; [reflexivity |].
  destruct (frame_queue_fifo 0 ops eq_refl) as (st & Hrun & _ & Hinv & _).
  exists st. split; [exact Hrun | exact Hinv].
Defined.

(** One consumer, twelve pushes, a check and a get after the second push:
    frame 1 is yielded, frames 2 to 11 are queued and frame 12 found the
    queue full. *)
Example example_interleaved_queue :
  stream_run (mkStream frame_queue [] [] [])
    [producer_push 1; producer_push 2; consumer_step 0; consumer_step 0;
     producer_push 3; producer_push 4; producer_push 5; producer_push 6;
     producer_push 7; producer_push 8; producer_push 9; producer_push 10;
     producer_push 11; producer_push 12]
  = Some (mkStream (Queue.mk 10 [2; 3; 4; 5; 6; 7; 8; 9; 10; 11]) [] [1]
            [1; 2; 3; 4; 5; 6; 7; 8; 9; 10; 11]).
Proof. reflexivity. Qed.

(** Two consumers and one frame: both pass the check, the first takes the
    frame and the second is left waiting inside [get]. *)
Example example_two_consumers_block :
  stream_run (mkStream frame_queue [] [] [])
    [producer_push 1; consumer_step 0; consumer_step 1; consumer_step 0; consumer_step 1]
  = None.
Proof. reflexivity. Qed.

(** ** [add_test_detections] *)

Section TestThread.

Variable labels : list string.
Variable converted : result (list Py.num).

Local Abbreviation n := (Z.of_nat (List.length labels)).

(** The constructor always builds the test detection: the primary path
    never raises and the fallback scales four integers. *)
Lemma test_detection_built (category : Z) :
  exists b,
    Detection_init converted TestMode.coords (NInt category) TestMode.conf
    = Ok (mkDetection (NInt category) TestMode.conf b).
Proof.
  unfold Detection_init. destruct converted as [vals | e]; simpl.
  - destruct (ClampFacts.clamp_box_in_frame vals 0) as (b & -> & _). eauto.
  - eauto.
Qed.

Lemma test_step_in_range (category : Z) latest :
  0 <= category < n ->
  exists b label,
    nth_error labels (Z.to_nat category) = Some label /\
    TestMode.step labels converted (n - 1) category latest
    = ([mkDetection (NInt category) TestMode.conf b],
       TestMode.Next ((category + 1) mod n)).
Proof.
  intros Hc. destruct (test_detection_built category) as [b Hb].
  destruct (index_in_range labels category Hc) as (label & Hnth & Hidx).
  exists b, label. split; [exact Hnth |].
  unfold TestMode.step. rewrite Hb, Hidx.
  replace (n - 1 + 1) with n by lia.
  destruct (n =? 0) eqn:E; [apply Z.eqb_eq in E; lia | reflexivity].
Qed.

Lemma test_loop_spec (passes : nat) (category : Z) latest :
  0 <= category < n ->
  exists latest',
    TestMode.loop labels converted (n - 1) passes category latest
    = (latest', TestMode.Next ((category + Z.of_nat passes) mod n)) /\
    (passes = O -> latest' = latest) /\
    (passes <> O ->
     exists b label,
       latest' = [mkDetection (NInt ((category + Z.of_nat passes - 1) mod n)) TestMode.conf b] /\
       nth_error labels (Z.to_nat ((category + Z.of_nat passes - 1) mod n)) = Some label).
Proof.
  revert category latest. induction passes as [| passes IH]; intros category latest Hc.
  - exists latest. simpl. rewrite Z.add_0_r, Z.mod_small by lia.
    split; [reflexivity |]. split; [reflexivity | congruence].
  - destruct (test_step_in_range category latest Hc) as (b & label & Hnth & Hstep).
    cbn [TestMode.loop]. rewrite Hstep.
    assert (0 <= (category + 1) mod n < n) as Hc' by (apply Z.mod_pos_bound; lia).
    destruct (IH ((category + 1) mod n) [mkDetection (NInt category) TestMode.conf b] Hc')
      as (latest' & Hloop & Hzero & Hpos).
    exists latest'. rewrite Hloop.
    replace (category + Z.of_nat (S passes)) with (category + 1 + Z.of_nat passes) by lia.
    rewrite Z.add_mod_idemp_l by lia.
    split; [reflexivity |]. split; [congruence |]. intros _.
    destruct passes as [| passes'].
    + rewrite (Hzero eq_refl). exists b, label.
      replace (category + 1 + Z.of_nat 0 - 1) with category by lia.
      rewrite Z.mod_small by lia. now split.
    + destruct Hpos as (b' & label' & Hl & Hn); [congruence |].
      replace ((category + 1) mod n + Z.of_nat (S passes') - 1)
        with ((category + 1) mod n + (Z.of_nat (S passes') - 1)) in Hl, Hn by lia.
      rewrite Z.add_mod_idemp_l in Hl, Hn by lia.
      replace (category + 1 + (Z.of_nat (S passes') - 1))
        with (category + 1 + Z.of_nat (S passes') - 1) in Hl, Hn by lia.
      eauto.
Qed.

End TestThread.

(** X10. With at least one label, the test thread never raises, whatever
    the conversion does with the test coordinates. After [k] passes its next
    category is [k mod n] for [n] labels, so it walks through the labels in
    order and starts again; after each pass [latest_detections] holds exactly
    one detection, of the category of that pass, with confidence 0.95, and
    that category is in the catalog. *)
Theorem test_mode_cycle
    (labels : list string) (converted : result (list Py.num))
    (passes : nat) (latest_detections : list Detection) :
  labels <> [] ->
  let n := Z.of_nat (List.length labels) in
  exists latest',
    TestMode.add_test_detections labels converted passes latest_detections
    = (latest', TestMode.Next (Z.of_nat passes mod n)) /\
    (passes = O -> latest' = latest_detections) /\
    (passes <> O ->
     exists b label,
       latest' = [mkDetection (NInt ((Z.of_nat passes - 1) mod n)) TestMode.conf b] /\
       nth_error labels (Z.to_nat ((Z.of_nat passes - 1) mod n)) = Some label /\
       all_resolve labels latest').
Proof.
  intros Hne n.
  assert (0 < n) as Hn by (subst n; destruct labels; [congruence | simpl; lia]).
  destruct (test_loop_spec labels converted passes 0 latest_detections)
    as (latest' & Hloop & Hzero & Hpos); [lia |].
  exists latest'. unfold TestMode.add_test_detections. rewrite Hloop. simpl.
  split; [reflexivity |]. split; [exact Hzero |].
  intros Hp. destruct (Hpos Hp) as (b & label & Hl & Hnth). simpl in Hl, Hnth.
  exists b, label. split; [exact Hl |]. split; [exact Hnth |].
  rewrite Hl. intros det [<- | []].
  unfold label_of. simpl.
  destruct (index_in_range labels ((Z.of_nat passes - 1) mod n)) as (x & _ & Hx);
    [apply Z.mod_pos_bound; lia | eauto].
Qed.

Lemma test_mode_cycle_witness :
  ["apple"; "banana"; "cherry"] <> [] /\
  snd (TestMode.add_test_detections ["apple"; "banana"; "cherry"]
         (Raise ConversionError) 5 [])
  = TestMode.Next 2.
Proof.
  split; [discriminate |].
  destruct (test_mode_cycle ["apple"; "banana"; "cherry"] (Raise ConversionError) 5 []
              ltac:(discriminate)) as (latest' & Hrun & _).
  rewrite Hrun. reflexivity.
Defined.

(** Five passes over three labels with a failing conversion: the detection
    left is of category 1, with the unclamped box of the fallback. *)
Example example_test_mode_five_passes :
  TestMode.add_test_detections ["apple"; "banana"; "cherry"] (Raise ConversionError) 5 []
  = ([mkDetection (NInt 1) TestMode.conf [64000; 48000; 128000; 72000]], TestMode.Next 2).
Proof. reflexivity. Qed.

(** ** An empty label list *)

(** Nothing can be looked up in an empty list. *)
Lemma label_of_nil (det : Detection) : exists e, label_of [] det = Raise e.
Proof.
  unfold label_of. destruct (Py.int (category det)) as [i | e]; simpl; [| eauto].
  exists IndexError. apply index_out_of_range. simpl. lia.
Qed.

(** X11. With no labels ([get_labels] returns the empty list when the file
    cannot be read), an iteration of the emitter that finds a detection
    while the session is active raises at the first one: nothing is counted,
    nothing is emitted and the loop has ended. While the session is stopped
    the same iteration still emits the product list. *)
Theorem no_labels_ends_emitter
    (PRODUCTS : Py.value) (g : globals) (current_time : float)
    (det : Detection) (rest : list Detection) :
  (detection_active g = true ->
   exists e,
     emit_detections_step [] PRODUCTS g current_time (det :: rest) = (g, Raised e) /\
     forall emitted,
       step [] PRODUCTS (mkSystem g None emitted) (tick current_time (det :: rest))
       = mkSystem g (Some e) emitted) /\
  (detection_active g = false ->
   emit_detections_step [] PRODUCTS g current_time (det :: rest)
   = emit_detections_step [] PRODUCTS g current_time []).
Proof.
  split; intros Hact.
  - destruct (label_of_nil det) as [e He]. exists e.
    assert (emit_detections_step [] PRODUCTS g current_time (det :: rest) = (g, Raised e)) as H.
    { unfold emit_detections_step. rewrite Hact. simpl. rewrite He.
      destruct g as [a d]. simpl in Hact. now subst a. }
    split; [exact H |]. intros emitted. simpl. now rewrite H.
  - unfold emit_detections_step. now rewrite Hact.
Qed.

(** X12. With an empty label list the test thread dies in its first pass
    with [IndexError], but only after it has stored its detection of
    category 0 in [latest_detections]; an active emitter that reads this
    detection ends with [IndexError] as well. *)
Theorem test_mode_without_labels
    (converted : result (list Py.num)) (passes : nat)
    (latest_detections : list Detection) :
  exists b,
    TestMode.add_test_detections [] converted (S passes) latest_detections
    = ([mkDetection (NInt 0) TestMode.conf b], TestMode.Died IndexError) /\
    forall PRODUCTS g current_time,
      detection_active g = true ->
      emit_detections_step [] PRODUCTS g current_time [mkDetection (NInt 0) TestMode.conf b]
      = (g, Raised IndexError).
Proof.
  destruct (test_detection_built converted 0) as [b Hb].
  exists b. split.
  - unfold TestMode.add_test_detections. cbn [TestMode.loop]. unfold TestMode.step.
    rewrite Hb. reflexivity.
  - intros PRODUCTS g current_time Hact.
    unfold emit_detections_step. rewrite Hact. simpl.
    destruct g as [a d]. simpl in Hact. now subst a.
Qed.

(** ** The rows of the dashboard *)

Section Rows.

Variable labels : list string.
Variable PRODUCTS : Py.value.

(** Counting appends a key or leaves the keys as they are. *)
Lemma count_label_keys_grow t (d : Py.dict ingredient) label :
  exists added, Py.keys (count_label t d label) = Py.keys d ++ added.
Proof.
  unfold count_label. destruct (Py.dict_get d label) as [info |] eqn:E.
  - exists []. rewrite app_nil_r.
    destruct (_ <=? _)%float; [| reflexivity].
    apply keys_set_present. apply dict_get_some_iff. eauto.
  - exists [label]. rewrite dict_set_absent by assumption.
    unfold Py.keys. now rewrite map_app.
Qed.

(** A product list names the counted labels, in the order of the counts. *)
Lemma data_list_active_names (items : Py.dict ingredient) data_list :
  data_list_active PRODUCTS items = Ok data_list ->
  map Msg.name data_list = Py.keys items.
Proof.
  revert data_list. induction items as [| [label info] items IH]; intros data_list; simpl.
  - intros [= <-]. reflexivity.
  - destruct (Py.get PRODUCTS label (VDict [])) as [product_info | e]; simpl; [| discriminate].
    destruct (Py.get product_info "price" (VInt 0)) as [price | e]; simpl; [| discriminate].
    destruct (data_list_active PRODUCTS items) as [tail | e]; simpl; [| discriminate].
    intros [= <-]. simpl. f_equal. now apply IH.
Qed.

Lemma emitted_names g current_time dets g' data_list :
  emit_detections_step labels PRODUCTS g current_time dets = (g', Emitted data_list) ->
  map Msg.name data_list = Py.keys (detected_ingredients g').
Proof.
  unfold emit_detections_step. destruct (detection_active g).
  - destruct (process_detections labels current_time dets (detected_ingredients g))
      as [d [e |]]; [discriminate |].
    destruct (data_list_active PRODUCTS d) as [l | e] eqn:E; [| discriminate].
    intros [= <- <-]. simpl. now apply data_list_active_names.
  - destruct (data_list_stopped PRODUCTS (detected_ingredients g)) as [l | e] eqn:E;
      [| discriminate].
    intros [= <- <-]. rewrite data_list_stopped_active in E.
    now apply data_list_active_names.
Qed.

Lemma rows_stable_run s evs :
  forallb (fun ev => negb (is_start ev)) evs = true ->
  (exists added,
     Py.keys (detected_ingredients (vars (run labels PRODUCTS s evs)))
     = Py.keys (detected_ingredients (vars s)) ++ added) /\
  exists news,
    emitted (run labels PRODUCTS s evs) = emitted s ++ news /\
    Forall (fun m => exists added,
              map Msg.name m = Py.keys (detected_ingredients (vars s)) ++ added) news.
Proof.
  revert s. induction evs as [| ev evs IH]; intros s Hevs.
  - split; [exists []; now rewrite app_nil_r |].
    exists []. split; [now rewrite app_nil_r | constructor].
  - simpl in Hevs. apply andb_prop in Hevs as [Hev Hevs].
    rewrite run_cons.
    destruct (IH (step labels PRODUCTS s ev) Hevs) as ([a2 Hk] & news & Hnews & Hall).
    assert (exists a1, Py.keys (detected_ingredients (vars (step labels PRODUCTS s ev)))
                       = Py.keys (detected_ingredients (vars s)) ++ a1) as [a1 Ha1].
    { apply (step_preserves labels PRODUCTS
               (fun d => exists a, Py.keys d = Py.keys (detected_ingredients (vars s)) ++ a)).
      - intros t d l [a Ha]. destruct (count_label_keys_grow t d l) as [a' Ha'].
        exists (a ++ a'). now rewrite Ha', Ha, app_assoc.
      - now destruct (is_start ev).
      - exists []. now rewrite app_nil_r. }
    split; [exists (a1 ++ a2); now rewrite Hk, Ha1, app_assoc |].
    assert (Forall (fun m => exists added,
                      map Msg.name m = Py.keys (detected_ingredients (vars s)) ++ added) news)
      as Hall'.
    { eapply Forall_impl; [| exact Hall]. intros m [a Hm].
      exists (a1 ++ a). now rewrite Hm, Ha1, app_assoc. }
    destruct ev as [| | current_time dets]; [discriminate | now exists news |].
    simpl in Hnews, Ha1 |- *.
    destruct (emitter s) as [e |]; [now exists news |].
    destruct (emit_detections_step labels PRODUCTS (vars s) current_time dets)
      as [g [m | e]] eqn:Hstep; simpl in *; [| now exists news].
    exists (m :: news). split; [now rewrite Hnews, <- app_assoc |].
    constructor; [| exact Hall'].
    exists a1. rewrite <- Ha1. eapply emitted_names. exact Hstep.
Qed.

End Rows.

(** X13. Between two start signals the dashboard rows are stable: over any
    events without a start, the list of counted labels only grows at its
    end, and every message emitted lists first the labels that were already
    counted, in their old order, then the new ones. *)
Theorem dashboard_rows_stable
    (labels : list string) (PRODUCTS : Py.value) (s : system) (evs : list event) :
  forallb (fun ev => negb (is_start ev)) evs = true ->
  (exists added,
     Py.keys (detected_ingredients (vars (run labels PRODUCTS s evs)))
     = Py.keys (detected_ingredients (vars s)) ++ added) /\
  exists news,
    emitted (run labels PRODUCTS s evs) = emitted s ++ news /\
    Forall (fun m => exists added,
              map Msg.name m = Py.keys (detected_ingredients (vars s)) ++ added) news.
Proof. apply rows_stable_run. Qed.

Lemma dashboard_rows_stable_witness :
  let apple := mkDetection (NInt 0) 0.75%float [100; 100; 200; 150] in
  let banana := mkDetection (NInt 1) 0.75%float [100; 100; 200; 150] in
  let s := mkSystem (mkGlobals true [("banana", mkIngredient 1 0%float)]) None [] in
  let evs := [tick 1%float [apple; banana]; stop_detection; tick 2%float [apple]] in
  forallb (fun ev => negb (is_start ev)) evs = true /\
  exists added,
    Py.keys (detected_ingredients (vars (run ["apple"; "banana"] (VDict []) s evs)))
    = ["banana"] ++ added.
Proof.
  intros apple banana s evs. split; [reflexivity |].
  destruct (dashboard_rows_stable ["apple"; "banana"] (VDict []) s evs eq_refl) as [H _].
  exact H.
Defined.

(** ** Quantities and iterations *)

Lemma ticks_cons (ev : event) (evs : list event) :
  ticks (ev :: evs) = (if is_tick ev then 1 else 0) + ticks evs.
Proof.
  unfold ticks. simpl. destruct (is_tick ev); simpl List.length; lia.
Qed.

Lemma quantity_run labels PRODUCTS s evs label :
  0 <= shown_quantity (detected_ingredients (vars s)) label ->
  0 <= shown_quantity (detected_ingredients (vars (run labels PRODUCTS s evs))) label
    <= shown_quantity (detected_ingredients (vars s)) label + ticks evs.
Proof.
  revert s. induction evs as [| ev evs IH]; intros s Hs.
  - unfold ticks. simpl. lia.
  - rewrite run_cons, ticks_cons.
    destruct ev as [| | current_time dets]; simpl is_tick.
    + assert (0 <= shown_quantity
                     (detected_ingredients (vars (step labels PRODUCTS s start_detection)))
                     label <= 0) as H0 by (unfold shown_quantity; simpl; lia).
      specialize (IH (step labels PRODUCTS s start_detection)). lia.
    + apply (IH (step labels PRODUCTS s stop_detection)). exact Hs.
    + assert (shown_quantity (detected_ingredients (vars s)) label
              <= shown_quantity
                   (detected_ingredients (vars (step labels PRODUCTS s (tick current_time dets))))
                   label
              <= shown_quantity (detected_ingredients (vars s)) label + 1) as Hstep.
      { rewrite step_tick_vars. destruct (emitter s); [lia |].
        rewrite emit_detections_step_vars. destruct (detection_active (vars s)); [| lia].
        simpl. apply process_detections_quantity. }
      specialize (IH (step labels PRODUCTS s (tick current_time dets))). lia.
Qed.

(** X14. No label is counted more often than the emitter has iterated:
    after any events from the initial state, each label's quantity (0
    without a record) lies between 0 and the number of iterations among the
    events; from any state with a non-negative quantity it grows by at most
    the number of iterations. *)
Theorem quantity_bounded_by_ticks
    (labels : list string) (PRODUCTS : Py.value) (evs : list event) (label : string) :
  0 <= shown_quantity
         (detected_ingredients (vars (run labels PRODUCTS initial_system evs))) label
    <= ticks evs /\
  forall s,
    0 <= shown_quantity (detected_ingredients (vars s)) label ->
    shown_quantity (detected_ingredients (vars (run labels PRODUCTS s evs))) label
      <= shown_quantity (detected_ingredients (vars s)) label + ticks evs.
Proof.
  split.
  - pose proof (quantity_run labels PRODUCTS initial_system evs label) as H.
    change (shown_quantity (detected_ingredients (vars initial_system)) label) with 0 in H.
    lia.
  - intros s Hs. now apply quantity_run.
Qed.

(** ** A catalog that is not an object of objects *)

Section BadCatalog.

(** The emission loop raises nothing but [AttributeError]. *)
Lemma data_list_active_raises PRODUCTS (items : Py.dict ingredient) e :
  data_list_active PRODUCTS items = Raise e -> e = AttributeError.
Proof.
  induction items as [| [label info] items IH]; simpl; [discriminate |].
  destruct PRODUCTS; simpl; try congruence.
  destruct (Py.dict_get kv label) as [[] |]; simpl; try congruence;
    try (destruct (data_list_active _ items); simpl; [discriminate | intros [= <-]; auto]).
  destruct (Py.dict_get kv0 "price"); simpl;
    destruct (data_list_active _ items); simpl; try discriminate; intros [= <-]; auto.
Qed.

Lemma data_list_active_not_ok PRODUCTS (items : Py.dict ingredient) :
  (forall l, data_list_active PRODUCTS items <> Ok l) ->
  data_list_active PRODUCTS items = Raise AttributeError.
Proof.
  intros H. destruct (data_list_active PRODUCTS items) as [l | e] eqn:E.
  - now destruct (H l).
  - now rewrite (data_list_active_raises _ _ _ E).
Qed.

Lemma data_list_active_bad_entry catalog (items : Py.dict ingredient) label v :
  In label (Py.keys items) ->
  Py.dict_get catalog label = Some v -> is_dict v = false ->
  data_list_active (VDict catalog) items = Raise AttributeError.
Proof.
  intros Hin Hget Hv. apply data_list_active_not_ok.
  induction items as [| [label0 info] items IH]; [contradiction |].
  intros l. simpl.
  destruct (string_dec label0 label) as [-> | Hne].
  - rewrite Hget. destruct v; simpl; discriminate.
  - destruct Hin as [H | Hin]; [simpl in H; congruence |].
    destruct (Py.dict_get catalog label0) as [v0 |]; simpl.
    + destruct (Py.get v0 "price" (VInt 0)); simpl; [| discriminate].
      destruct (data_list_active (VDict catalog) items) as [tail | e] eqn:E; simpl;
        [| discriminate].
      now destruct (IH Hin tail).
    + destruct (data_list_active (VDict catalog) items) as [tail | e] eqn:E; simpl;
        [| discriminate].
      now destruct (IH Hin tail).
Qed.

End BadCatalog.

(** X16. The emission loop only works with a catalog that is an object
    whose entries are objects. When [PRODUCTS] is anything else and at
    least one label is counted, or when the catalog maps a counted label
    straight to a value such as a number, both branches raise
    [AttributeError] and send nothing; with no label counted the empty list is
    emitted whatever [PRODUCTS] is. No other exception leaves the loop. *)
Theorem catalog_must_be_objects (PRODUCTS : Py.value) (items : Py.dict ingredient) :
  (is_dict PRODUCTS = false -> items <> [] ->
     data_list_active PRODUCTS items = Raise AttributeError /\
     data_list_stopped PRODUCTS items = Raise AttributeError) /\
  (forall catalog label v,
     PRODUCTS = VDict catalog ->
     In label (Py.keys items) ->
     Py.dict_get catalog label = Some v -> is_dict v = false ->
     data_list_active PRODUCTS items = Raise AttributeError /\
     data_list_stopped PRODUCTS items = Raise AttributeError) /\
  data_list_active PRODUCTS [] = Ok [] /\
  (forall e, data_list_active PRODUCTS items = Raise e -> e = AttributeError).
Proof.
  split; [| split; [| split]].
  - intros Hp Hne.
    assert (data_list_active PRODUCTS items = Raise AttributeError) as H.
    { destruct items as [| [label info] items]; [congruence |].
      destruct PRODUCTS; try discriminate; reflexivity. }
    split; [exact H |]. now rewrite <- H; apply data_list_stopped_active.
  - intros catalog label v -> Hin Hget Hv.
    pose proof (data_list_active_bad_entry catalog items label v Hin Hget Hv) as H.
    split; [exact H |]. now rewrite <- H; apply data_list_stopped_active.
  - reflexivity.
  - apply data_list_active_raises.
Qed.

(** A catalog that maps "apple" straight to its price, with "apple"
    counted: the iteration counts, raises and emits nothing. *)
Example example_price_as_number :
  let apple := mkDetection (NInt 0) 0.75%float [100; 100; 200; 150] in
  emit_detections_step ["apple"] (VDict [("apple", VFloat 0.5%float)])
    (mkGlobals true []) 0%float [apple]
  = (mkGlobals true [("apple", mkIngredient 1 0%float)], Raised AttributeError).
Proof. reflexivity. Qed.

(** ** Iterations that read the same clock and the same detections *)

Section SameTick.

Variable labels : list string.
Variable current_time : float.

Lemma process_detections_snd dets d :
  snd (process_detections labels current_time dets d) = first_error labels dets.
Proof.
  revert d. induction dets as [| det dets IH]; intros d; simpl; [reflexivity |].
  destruct (label_of labels det); simpl; auto.
Qed.

(** Every label the loop got to is settled when it returns. *)
Lemma reached_labels_settled dets d label :
  In label (reached_labels labels dets) ->
  settled current_time (fst (process_detections labels current_time dets d)) label.
Proof.
  revert d. induction dets as [| det dets IH]; intros d; simpl; [contradiction |].
  destruct (label_of labels det) as [l |]; simpl; [| contradiction].
  intros [<- | Hin]; [| now apply IH].
  apply (process_detections_preserves labels current_time
           (fun d0 => settled current_time d0 l)).
  - intros d0 l0 H. now apply settled_stable.
  - apply count_label_settles.
Qed.

(** On counts in which the labels are settled the loop changes nothing. *)
Lemma process_detections_settled dets d :
  (forall label, In label (reached_labels labels dets) -> settled current_time d label) ->
  process_detections labels current_time dets d = (d, first_error labels dets).
Proof.
  induction dets as [| det dets IH]; simpl; [reflexivity |].
  destruct (label_of labels det) as [l |]; [| reflexivity].
  intros H. rewrite settled_noop by (apply H; now left).
  apply IH. intros label Hin. apply H. now right.
Qed.

End SameTick.

(** X17. An iteration of the emitter is idempotent for a given reading of
    the clock: run again on the globals it left, with the same time and the
    same detections, it leaves the same globals and ends the same way (the
    same message, or the same exception). So several iterations within one
    reading of the clock count a label once. *)
Theorem emit_detections_step_idempotent
    (labels : list string) (PRODUCTS : Py.value) (g : globals)
    (current_time : float) (current_detections : list Detection) :
  let r := emit_detections_step labels PRODUCTS g current_time current_detections in
  emit_detections_step labels PRODUCTS (fst r) current_time current_detections = r.
Proof.
  cbv zeta. unfold emit_detections_step at 2 3.
  destruct (detection_active g) eqn:Hact.
  - pose proof (process_detections_snd labels current_time current_detections
                  (detected_ingredients g)) as Hsnd.
    pose proof (fun label => reached_labels_settled labels current_time current_detections
                  (detected_ingredients g) label) as Hsettled.
    destruct (process_detections labels current_time current_detections
                (detected_ingredients g)) as [d err] eqn:Hrun.
    simpl in Hsnd, Hsettled. subst err.
    pose proof (process_detections_settled labels current_time current_detections d Hsettled)
      as Hagain.
    assert (emit_detections_step labels PRODUCTS (mkGlobals true d) current_time
              current_detections
            = match first_error labels current_detections with
              | Some e => (mkGlobals true d, Raised e)
              | None =>
                  match data_list_active PRODUCTS d with
                  | Ok data_list => (mkGlobals true d, Emitted data_list)
                  | Raise e => (mkGlobals true d, Raised e)
                  end
              end) as Hstep.
    { unfold emit_detections_step. simpl. now rewrite Hagain. }
    destruct (first_error labels current_detections) as [e |]; simpl; [exact Hstep |].
    destruct (data_list_active PRODUCTS d); simpl; exact Hstep.
  - assert (emit_detections_step labels PRODUCTS g current_time current_detections
            = match data_list_stopped PRODUCTS (detected_ingredients g) with
              | Ok data_list => (g, Emitted data_list)
              | Raise e => (g, Raised e)
              end) as Hstep.
    { unfold emit_detections_step. now rewrite Hact. }
    destruct (data_list_stopped PRODUCTS (detected_ingredients g)); simpl; exact Hstep.
Qed.

(** ** The order of the detections within a tick *)

Section Order.

Variable labels : list string.
Variable current_time : float.

Local Abbreviation same_records d1 d2 :=
  (forall label : string, @Py.dict_get ingredient d1 label = Py.dict_get d2 label).

(** The record a label has after it was counted, from the one before. *)
Lemma count_label_get_same (d : Py.dict ingredient) label :
  Py.dict_get (count_label current_time d label) label =
  Some match Py.dict_get d label with
       | None => mkIngredient 1 current_time
       | Some info =>
           if (weight_update_threshold <=? current_time - last_update info)%float
           then mkIngredient (quantity info + 1) current_time
           else info
       end.
Proof.
  unfold count_label. destruct (Py.dict_get d label) as [info |] eqn:E.
  - destruct (_ <=? _)%float; [apply dict_get_set_same | exact E].
  - apply dict_get_set_same.
Qed.

Lemma count_label_same_records d1 d2 label :
  same_records d1 d2 ->
  same_records (count_label current_time d1 label) (count_label current_time d2 label).
Proof.
  intros H l. destruct (string_dec label l) as [<- | Hne].
  - now rewrite !count_label_get_same, H.
  - now rewrite !count_label_other.
Qed.

Lemma count_label_swap d a b :
  same_records (count_label current_time (count_label current_time d a) b)
               (count_label current_time (count_label current_time d b) a).
Proof.
  destruct (string_dec a b) as [-> | Hab]; [reflexivity |].
  intros l. destruct (string_dec b l) as [<- | Hb].
  - rewrite count_label_get_same, (count_label_other current_time _ a b) by assumption.
    rewrite (count_label_other current_time _ a b) by assumption.
    now rewrite count_label_get_same.
  - rewrite (count_label_other current_time _ b l) by assumption.
    destruct (string_dec a l) as [<- | Ha].
    + rewrite !count_label_get_same.
      now rewrite (count_label_other current_time _ b a) by congruence.
    + now rewrite !count_label_other by assumption.
Qed.

Lemma process_detections_same_records dets d1 d2 :
  same_records d1 d2 ->
  same_records (fst (process_detections labels current_time dets d1))
               (fst (process_detections labels current_time dets d2)).
Proof.
  revert d1 d2. induction dets as [| det dets IH]; intros d1 d2 H; simpl; [exact H |].
  destruct (label_of labels det); simpl; [| exact H].
  apply IH. now apply count_label_same_records.
Qed.

Lemma process_detections_permutation dets dets' :
  Permutation dets dets' ->
  all_resolve labels dets ->
  forall d1 d2, same_records d1 d2 ->
    same_records (fst (process_detections labels current_time dets d1))
                 (fst (process_detections labels current_time dets' d2)).
Proof.
  induction 1 as [| x l l' Hperm IH | x y l | l l' l'' H1 IH1 H2 IH2];
    intros Hall d1 d2 Hd.
  - exact Hd.
  - simpl. destruct (Hall x (or_introl eq_refl)) as [lx ->].
    apply IH; [| now apply count_label_same_records].
    intros det Hin. apply Hall. now right.
  - simpl.
    destruct (Hall y (or_introl eq_refl)) as [ly ->].
    destruct (Hall x (or_intror (or_introl eq_refl))) as [lx ->].
    apply process_detections_same_records. intros label.
    rewrite (count_label_swap d1 ly lx label).
    now apply count_label_same_records, count_label_same_records.
  - intros label.
    rewrite (IH1 Hall d1 d2 Hd label).
    apply IH2; [| reflexivity].
    intros det Hin. apply Hall. eapply Permutation_in; [symmetry; exact H1 | exact Hin].
Qed.

End Order.

(** X18. When every category resolves, the record a tick leaves for each
    label (its quantity and its timer) does not depend on the order of the
    detections in [latest_detections]: any reordering of the list gives the
    same records and no exception. Only the position of newly counted labels
    in the dictionary follows the order of the detections. *)
Theorem detection_order_irrelevant
    (labels : list string) (current_time : float)
    (dets dets' : list Detection) (d : Py.dict ingredient) :
  Permutation dets dets' ->
  all_resolve labels dets ->
  (forall label,
     Py.dict_get (fst (process_detections labels current_time dets d)) label
     = Py.dict_get (fst (process_detections labels current_time dets' d)) label) /\
  snd (process_detections labels current_time dets d) = None /\
  snd (process_detections labels current_time dets' d) = None.
Proof.
  intros Hperm Hall. split; [| split].
  - now apply (process_detections_permutation labels current_time dets dets' Hperm Hall d d).
  - now apply process_detections_resolved.
  - apply process_detections_resolved.
    intros det Hin. apply Hall. eapply Permutation_in; [symmetry; exact Hperm | exact Hin].
Qed.

Lemma detection_order_irrelevant_witness :
  let apple := mkDetection (NInt 0) 0.75%float [100; 100; 200; 150] in
  let banana := mkDetection (NInt 1) 0.5%float [10; 10; 20; 20] in
  let d := [("banana", mkIngredient 2 0%float)] in
  Permutation [apple; banana] [banana; apple] /\
  all_resolve ["apple"; "banana"] [apple; banana] /\
  Py.dict_get (fst (process_detections ["apple"; "banana"] 3%float [apple; banana] d)) "banana"
  = Py.dict_get (fst (process_detections ["apple"; "banana"] 3%float [banana; apple] d)) "banana".
Proof.
  intros apple banana d.
  assert (Permutation [apple; banana] [banana; apple]) as Hperm by apply perm_swap.
  assert (all_resolve ["apple"; "banana"] [apple; banana]) as Hall.
  { intros det [<- | [<- | []]]; [now exists "apple" | now exists "banana"]. }
  split; [exact Hperm |]. split; [exact Hall |].
  destruct (detection_order_irrelevant ["apple"; "banana"] 3%float
              [apple; banana] [banana; apple] d Hperm Hall) as [H _].
  apply H.
Defined.

(** * Lookups that raise *)

(** The properties below account for the two lookups that can end an
    iteration: the label of a detection and the catalog entry of a counted
    label. *)

Section Outcome.

Variable labels : list string.

Lemma first_error_none_iff dets :
  first_error labels dets = None <-> all_resolve labels dets.
Proof.
  induction dets as [| det dets IH]; simpl.
  - split; [intros _ det [] | reflexivity].
  - destruct (label_of labels det) as [l | e] eqn:E.
    + rewrite IH. split.
      * intros H det' [<- | Hin]; [eauto | auto].
      * intros H det' Hin. apply H. now right.
    + split; [discriminate |]. intros H.
      destruct (H det (or_introl eq_refl)) as [l Hl]. congruence.
Qed.



Variable PRODUCTS : Py.value.

(** The outcome of an iteration, case by case. *)
Lemma emit_detections_step_outcome g current_time dets :
  let d' := detected_ingredients
              (fst (emit_detections_step labels PRODUCTS g current_time dets)) in
  snd (emit_detections_step labels PRODUCTS g current_time dets) =
  match (if detection_active g then first_error labels dets else None) with
  | Some e => Raised e
  | None =>
      match data_list_active PRODUCTS d' with
      | Ok data_list => Emitted data_list
      | Raise e => Raised e
      end
  end.
Proof.
  cbv zeta. unfold emit_detections_step. destruct (detection_active g).
  - pose proof (process_detections_snd labels current_time dets (detected_ingredients g))
      as Hsnd.
    destruct (process_detections labels current_time dets (detected_ingredients g))
      as [d err]. simpl in Hsnd. subst err.
    destruct (first_error labels dets); [reflexivity |].
    destruct (data_list_active PRODUCTS d) eqn:E; simpl; now rewrite E.
  - rewrite data_list_stopped_active.
    destruct (data_list_active PRODUCTS (detected_ingredients g)) eqn:E; simpl;
      now rewrite E.
Qed.

(** An iteration of the running emitter in terms of its outcome. *)
Lemma step_tick_outcome s current_time dets :
  emitter s = None ->
  let r := emit_detections_step labels PRODUCTS (vars s) current_time dets in
  step labels PRODUCTS s (tick current_time dets) =
  match snd r with
  | Emitted data_list => mkSystem (fst r) None (emitted s ++ [data_list])
  | Raised e => mkSystem (fst r) (Some e) (emitted s)
  end.
Proof.
  intros Hrun. simpl. rewrite Hrun.
  now destruct (emit_detections_step labels PRODUCTS (vars s) current_time dets)
    as [g [m | e]].
Qed.

(** An emitter that has ended stays ended. *)
Lemma emitter_ended_run s e evs :
  emitter s = Some e -> emitter (run labels PRODUCTS s evs) = Some e.
Proof.
  revert s. induction evs as [| ev evs IH]; intros s He; [exact He |].
  rewrite run_cons. apply IH. destruct ev; simpl; try exact He. now rewrite He.
Qed.




End Outcome.

(** ** C4: a category outside the catalog *)

(** C4, as the code has it. Let [n] be the number of labels and [c] the
    category of a detection as [int] gives it, truncated toward zero; the
    category may be a Python int or a float of the network.
    - When [c >= n] or [c < -n], the label lookup raises [IndexError]; when
      [int] itself raises (on a nan or an infinity), the lookup raises that
      exception.
    - Whenever the lookup raises: in an active session the counting loop
      stops at that detection, with the counts as the detections before it
      left them and nothing recorded for it; the iteration emits nothing and
      the emitter loop ends, so later iterations do not happen. The drawing
      pass stops at it as well and the frame is not queued.
    - When [-n <= c < 0], the lookup takes the label at [c + n]: the
      detection is counted under that label and, when OpenCV accepts its
      coordinates, drawn under that label.
    - While the session is stopped, an iteration looks up no label and
      leaves the globals as they are, whatever the detections. *)
Theorem out_of_range_category
    (cv2 : draw_op -> option Py.exn) (labels : list string) (det : Detection) :
  let n := Z.of_nat (List.length labels) in
  (forall c, Py.int (category det) = Ok c -> c >= n \/ c < - n ->
     label_of labels det = Raise IndexError) /\
  (forall e, Py.int (category det) = Raise e -> label_of labels det = Raise e) /\
  (forall e, label_of labels det = Raise e ->
     (forall current_time pre post d,
        all_resolve labels pre ->
        process_detections labels current_time (pre ++ det :: post) d =
        (fst (process_detections labels current_time pre d), Some e)) /\
     (forall PRODUCTS s current_time pre post,
        emitter s = None -> detection_active (vars s) = true ->
        all_resolve labels pre ->
        let s' := step labels PRODUCTS s (tick current_time (pre ++ det :: post)) in
        emitter s' = Some e /\
        emitted s' = emitted s /\
        detected_ingredients (vars s') =
          fst (process_detections labels current_time pre (detected_ingredients (vars s))) /\
        forall evs, forallb is_tick evs = true -> run labels PRODUCTS s' evs = s') /\
     (forall pre post array array' q x y w h,
        box det = [x; y; w; h] ->
        draw_detections cv2 labels pre array = (array', None) ->
        pre_callback_draw cv2 labels (pre ++ det :: post) array q = Some (q, Some e))) /\
  (forall c, Py.int (category det) = Ok c -> - n <= c < 0 ->
     exists label,
       nth_error labels (Z.to_nat (c + n)) = Some label /\
       label_of labels det = Ok label /\
       (forall current_time d,
          process_detections labels current_time [det] d
          = (count_label current_time d label, None)) /\
       (forall x y w h array,
          box det = [x; y; w; h] ->
          cv2 (putText label (conf det) (x + 5) (y + 15)) = None ->
          cv2 (rectangle x y (x + w) (y + h)) = None ->
          draw_detections cv2 labels [det] array
          = (array ++ [putText label (conf det) (x + 5) (y + 15);
                       rectangle x y (x + w) (y + h)], None))) /\
  (forall PRODUCTS g current_time dets,
     detection_active g = false ->
     fst (emit_detections_step labels PRODUCTS g current_time dets) = g).
Proof.
  intros n. split; [| split; [| split; [| split]]].
  - intros c Hc Hout. unfold label_of. rewrite Hc. simpl. now apply index_out_of_range.
  - intros e He. unfold label_of. now rewrite He.
  - intros e Hraise. split; [| split].
    + intros current_time pre post d Hpre. now apply process_detections_raise.
    + intros PRODUCTS s current_time pre post Hrun Hact Hpre.
      assert (step labels PRODUCTS s (tick current_time (pre ++ det :: post)) =
              mkSystem (mkGlobals true
                          (fst (process_detections labels current_time pre
                                  (detected_ingredients (vars s)))))
                       (Some e) (emitted s)) as Hstep.
      { simpl. rewrite Hrun. unfold emit_detections_step. rewrite Hact.
        now rewrite (process_detections_raise labels current_time pre det post _ e). }
      cbv zeta. rewrite Hstep. simpl. repeat split.
      intros evs Hevs. now apply (ended_emitter labels PRODUCTS _ e).
    + intros pre post array array' q x y w h Hbox Hpre.
      unfold pre_callback_draw. rewrite draw_detections_app, Hpre. simpl.
      now rewrite Hbox, Hraise.
  - intros c Hc Hneg.
    destruct (index_negative labels c Hneg) as (label & Hnth & Hidx).
    exists label. split; [exact Hnth |].
    assert (label_of labels det = Ok label) as Hok.
    { unfold label_of. rewrite Hc. simpl. exact Hidx. }
    split; [exact Hok |]. split.
    + intros current_time d. simpl. now rewrite Hok.
    + intros x y w h array Hbox Htext Hrect. simpl.
      now rewrite Hbox, Hok, Htext, Hrect.
  - intros PRODUCTS g current_time dets. apply stopped_step_vars.
Qed.

(** Two labels, an active session with "apple" at 1. A detection of category
    2, as an int or as the float 2.0 of the network, ends the iteration and
    the loop with [IndexError] and stops the drawing pass; a detection of
    category -1 is counted as "banana", and one of category -2.5, which
    [int] truncates to -2, as "apple". *)
Lemma out_of_range_category_counterexample :
  let labels := ["apple"; "banana"] in
  let catalog := VDict [("apple", VDict [("price", VFloat 0.5%float)])] in
  let beyond := mkDetection (NInt 2) 0.75%float [100; 100; 200; 150] in
  let beyond_float := mkDetection (NFloat 2%float) 0.75%float [100; 100; 200; 150] in
  let negative := mkDetection (NInt (-1)) 0.75%float [100; 100; 200; 150] in
  let negative_float := mkDetection (NFloat (-2.5)%float) 0.75%float [100; 100; 200; 150] in
  let g := mkGlobals true [("apple", mkIngredient 1 0%float)] in
  let s := mkSystem g None [] in
  emit_detections_step labels catalog g 5%float [beyond] = (g, Raised IndexError) /\
  emit_detections_step labels catalog g 5%float [beyond_float] = (g, Raised IndexError) /\
  run labels catalog s [tick 5%float [beyond_float]; tick 6%float []; tick 7%float []]
    = mkSystem g (Some IndexError) [] /\
  pre_callback_draw cv2_c_int labels [beyond_float] [] frame_queue
    = Some (frame_queue, Some IndexError) /\
  fst (emit_detections_step labels catalog g 5%float [negative])
    = mkGlobals true [("apple", mkIngredient 1 0%float);
                      ("banana", mkIngredient 1 5%float)] /\
  fst (emit_detections_step labels catalog g 5%float [negative_float])
    = mkGlobals true [("apple", mkIngredient 2 5%float)].
Proof. repeat split. Qed.

Lemma out_of_range_category_witness :
  let labels := ["apple"; "banana"] in
  let beyond := mkDetection (NFloat 2%float) 0.75%float [100; 100; 200; 150] in
  let apple := mkDetection (NFloat 0%float) 0.75%float [10; 10; 20; 20] in
  Py.int (category beyond) = Ok 2 /\
  2 >= Z.of_nat (List.length labels) /\
  process_detections labels 5%float [apple; beyond; apple] []
    = ([("apple", mkIngredient 1 5%float)], Some IndexError).
Proof.
  intros labels beyond apple.
  split; [reflexivity |]. split; [simpl; lia |].
  destruct (out_of_range_category cv2_c_int labels beyond) as (Hout & _ & Hraise & _).
  assert (label_of labels beyond = Raise IndexError) as H
    by (apply (Hout 2); [reflexivity | left; simpl; lia]).
  destruct (Hraise IndexError H) as (Hloop & _).
  apply (Hloop 5%float [apple] [apple] []).
  intros det [<- | []]. now exists "apple".
Defined.

(** ** C7: a label without a price is priced 0 *)

Section Emission.

Variable labels : list string.

Lemma data_list_active_not_dict PRODUCTS (items : Py.dict ingredient) :
  is_dict PRODUCTS = false -> items <> [] ->
  data_list_active PRODUCTS items = Raise AttributeError.
Proof.
  intros Hp Hne. destruct items as [| [label info] items]; [congruence |].
  destruct PRODUCTS; try discriminate; reflexivity.
Qed.

(** An iteration whose lookups all succeed emits the list of its counts. *)
Lemma emit_detections_step_emits catalog g current_time dets :
  (detection_active g = true -> all_resolve labels dets) ->
  let r := emit_detections_step labels (VDict catalog) g current_time dets in
  (forall label, In label (Py.keys (detected_ingredients (fst r))) ->
                 product_ok catalog label) ->
  snd r = Emitted (map (entry_of catalog) (detected_ingredients (fst r))).
Proof.
  intros Hres r Hok. subst r. rewrite emit_detections_step_outcome. cbv zeta.
  replace (if detection_active g then first_error labels dets else None)
    with (@None Py.exn).
  - now rewrite data_list_active_ok.
  - destruct (detection_active g); [| reflexivity].
    symmetry. apply first_error_none_iff. now apply Hres.
Qed.

End Emission.

(** C7. An iteration of the emitter, active or stopped, on a catalog object:
    when its label lookups succeed and every label counted at its end is
    either absent from the catalog or has an object as its entry, the
    iteration emits its message, the message has one entry per counted label
    in order, and every such label that the catalog does not have, or has
    without a ["price"], appears in it with its stored quantity at price 0.
    In the emission loop itself, such a label passes both lookups without
    an exception, in the active and in the stopped branch alike, and the
    rest of the list is built as without it. *)
Theorem missing_price_default
    (labels : list string) (catalog : Py.dict Py.value) (g : globals)
    (current_time : float) (current_detections : list Detection) :
  (detection_active g = true -> all_resolve labels current_detections) ->
  let r := emit_detections_step labels (VDict catalog) g current_time current_detections in
  let counts := detected_ingredients (fst r) in
  (forall label, In label (Py.keys counts) -> product_ok catalog label) ->
  (exists data_list,
     snd r = Emitted data_list /\
     map Msg.name data_list = Py.keys counts /\
     forall label info,
       In (label, info) counts -> price_missing catalog label ->
       In (Msg.mk label (quantity info) (VInt 0)) data_list) /\
  (forall label info rest,
     price_missing catalog label ->
     data_list_active (VDict catalog) ((label, info) :: rest) =
       (tail <- data_list_active (VDict catalog) rest ;;
        Ok (Msg.mk label (quantity info) (VInt 0) :: tail)) /\
     data_list_stopped (VDict catalog) ((label, info) :: rest) =
       (tail <- data_list_stopped (VDict catalog) rest ;;
        Ok (Msg.mk label (quantity info) (VInt 0) :: tail))) /\
  (forall items,
     (forall label, In label (Py.keys items) -> product_ok catalog label) ->
     exists data_list,
       data_list_active (VDict catalog) items = Ok data_list /\
       data_list_stopped (VDict catalog) items = Ok data_list /\
       map Msg.name data_list = Py.keys items /\
       forall label info,
         In (label, info) items -> price_missing catalog label ->
         In (Msg.mk label (quantity info) (VInt 0)) data_list).
Proof.
  intros Hres r counts Hok.
  assert (forall items label info,
            In (label, info) items -> price_missing catalog label ->
            In (Msg.mk label (quantity info) (VInt 0)) (map (entry_of catalog) items))
    as Hzero.
  { intros items label info Hin Hmiss.
    apply in_map_iff. exists (label, info). split; [| assumption].
    unfold entry_of. simpl. now rewrite price_missing_zero. }
  split; [| split].
  - exists (map (entry_of catalog) counts). split; [| split].
    + now apply emit_detections_step_emits.
    + apply entry_names.
    + apply Hzero.
  - intros label info rest Hmiss.
    assert (data_list_active (VDict catalog) ((label, info) :: rest) =
            (tail <- data_list_active (VDict catalog) rest ;;
             Ok (Msg.mk label (quantity info) (VInt 0) :: tail))) as H.
    { rewrite data_list_active_cons by now apply price_missing_ok.
      now rewrite price_missing_zero. }
    split; [exact H |].
    now rewrite !data_list_stopped_active.
  - intros items Hitems. exists (map (entry_of catalog) items).
    pose proof (data_list_active_ok catalog items Hitems) as Hlist.
    split; [exact Hlist |].
    split; [now rewrite <- Hlist; apply data_list_stopped_active |].
    split; [apply entry_names | apply Hzero].
Qed.

(** An active iteration that counts "kiwi", which the catalog does not
    have, next to "pear", which has no price: both are emitted at price 0. *)
Lemma missing_price_default_witness :
  let labels := ["apple"; "pear"; "kiwi"] in
  let catalog := [("apple", VDict [("price", VFloat 0.5%float)]);
                  ("pear", VDict [("unit", VStr "kg")])] in
  let kiwi := mkDetection (NFloat 2%float) 0.75%float [100; 100; 200; 150] in
  let g := mkGlobals true [("pear", mkIngredient 3 4%float)] in
  all_resolve labels [kiwi] /\
  price_missing catalog "kiwi" /\
  exists data_list,
    snd (emit_detections_step labels (VDict catalog) g 5%float [kiwi]) = Emitted data_list /\
    In (Msg.mk "kiwi" 1 (VInt 0)) data_list.
Proof.
  intros labels catalog kiwi g.
  assert (all_resolve labels [kiwi]) as Hres.
  { intros det [<- | []]. now exists "kiwi". }
  assert (price_missing catalog "kiwi") as Hmiss by (now left).
  split; [exact Hres |]. split; [exact Hmiss |].
  destruct (missing_price_default labels catalog g 5%float [kiwi] (fun _ => Hres))
    as ((data_list & Hemit & _ & Hzero) & _).
  - intros label [<- | [<- | []]]; [right; eexists; reflexivity | now left].
  - exists data_list. split; [exact Hemit |].
    apply (Hzero "kiwi" (mkIngredient 1 5%float)); [| exact Hmiss].
    right. now left.
Defined.

(** ** C8: when an iteration broadcasts *)

(** C8, as the code has it. An iteration of the running emitter emits
    exactly one message when none of its lookups raises: while the session
    is active every category it reads resolves, and every label counted at
    its end is absent from the catalog object or has an object as its entry.
    This holds with the session active or stopped and without any look at
    what was sent before. The message lists the counts held at the end of
    the iteration, in order: one entry per label, with the stored quantity
    and the catalog's price, and no label twice when the counts had none
    twice. The stopped branch builds from any counts the list the active
    branch builds from them. An iteration in which a lookup raises emits
    nothing and ends the loop: with the exception of the first label lookup
    that fails while the session is active, or with [AttributeError] when
    [PRODUCTS] is not an object and a label is counted, or when a counted
    label's entry is not an object. *)
Theorem unconditional_broadcast
    (labels : list string) (PRODUCTS : Py.value) (s : system)
    (current_time : float) (latest_detections : list Detection) :
  emitter s = None ->
  let s' := step labels PRODUCTS s (tick current_time latest_detections) in
  let counts := detected_ingredients (vars s') in
  (forall catalog,
     PRODUCTS = VDict catalog ->
     (detection_active (vars s) = true -> all_resolve labels latest_detections) ->
     (forall label, In label (Py.keys counts) -> product_ok catalog label) ->
     let message := map (entry_of catalog) counts in
     emitter s' = None /\
     emitted s' = emitted s ++ [message] /\
     map Msg.name message = Py.keys counts /\
     (forall label info,
        In (label, info) counts ->
        In (Msg.mk label (quantity info) (price_of catalog label)) message) /\
     (NoDup (Py.keys (detected_ingredients (vars s))) -> NoDup (map Msg.name message))) /\
  (forall e,
     detection_active (vars s) = true ->
     first_error labels latest_detections = Some e ->
     emitter s' = Some e /\ emitted s' = emitted s) /\
  ((detection_active (vars s) = true -> all_resolve labels latest_detections) ->
   (is_dict PRODUCTS = false /\ counts <> []) \/
   (exists catalog label v,
      PRODUCTS = VDict catalog /\ In label (Py.keys counts) /\
      Py.dict_get catalog label = Some v /\ is_dict v = false) ->
   emitter s' = Some AttributeError /\ emitted s' = emitted s) /\
  (forall P items, data_list_stopped P items = data_list_active P items).
Proof.
  intros Hrun. cbv zeta.
  pose proof (step_tick_outcome labels PRODUCTS s current_time latest_detections Hrun)
    as Hstep. cbv zeta in Hstep.
  pose proof (emit_detections_step_outcome labels PRODUCTS (vars s) current_time
                latest_detections) as Hout. cbv zeta in Hout.
  pose proof (emit_detections_step_vars labels PRODUCTS (vars s) current_time
                latest_detections) as Hvars.
  set (r := emit_detections_step labels PRODUCTS (vars s) current_time latest_detections)
    in *.
  assert (vars (step labels PRODUCTS s (tick current_time latest_detections)) = fst r)
    as Hfst by (rewrite Hstep; now destruct (snd r)).
  rewrite Hfst.
  assert ((detection_active (vars s) = true -> all_resolve labels latest_detections) ->
          (if detection_active (vars s) then first_error labels latest_detections else None)
          = None) as Hnone.
  { intros Hres. destruct (detection_active (vars s)); [| reflexivity].
    apply first_error_none_iff. now apply Hres. }
  split; [| split; [| split]].
  - intros catalog -> Hres Hok.
    rewrite (Hnone Hres), data_list_active_ok in Hout by assumption.
    rewrite Hstep, Hout. simpl.
    split; [reflexivity |]. split; [reflexivity |]. split; [apply entry_names |].
    split.
    + intros label info Hin. apply in_map_iff. now exists (label, info).
    + intros Hnd. rewrite entry_names, Hvars.
      destruct (detection_active (vars s)); [| exact Hnd].
      simpl. apply (process_detections_preserves labels current_time
                      (fun d => NoDup (Py.keys d))); [| exact Hnd].
      intros d0 l H. now apply count_label_NoDup.
  - intros e Hact Herr. rewrite Hact, Herr in Hout.
    rewrite Hstep, Hout. now split.
  - intros Hres Hbad. rewrite (Hnone Hres) in Hout.
    assert (data_list_active PRODUCTS (detected_ingredients (fst r)) = Raise AttributeError)
      as Hraise.
    { destruct Hbad as [[Hp Hne] | (catalog & label & v & -> & Hin & Hget & Hv)].
      - now apply data_list_active_not_dict.
      - now apply (data_list_active_bad_entry catalog _ label v). }
    rewrite Hraise in Hout. rewrite Hstep, Hout. now split.
  - intros P items. apply data_list_stopped_active.
Qed.

(** An active session at 2.5 s with "apple" counted once at 0 s sees "apple"
    again: one message, showing 2 at the catalog's price. *)
Lemma unconditional_broadcast_witness :
  let apple := mkDetection (NFloat 0%float) 0.75%float [100; 100; 200; 150] in
  let catalog := [("apple", VDict [("price", VFloat 0.5%float)])] in
  let s := mkSystem (mkGlobals true [("apple", mkIngredient 1 0%float)]) None [] in
  emitter s = None /\
  all_resolve ["apple"] [apple] /\
  emitted (step ["apple"] (VDict catalog) s (tick 2.5%float [apple]))
    = [[Msg.mk "apple" 2 (VFloat 0.5%float)]].
Proof.
  intros apple catalog s.
  assert (all_resolve ["apple"] [apple]) as Hres.
  { intros det [<- | []]. now exists "apple". }
  split; [reflexivity |]. split; [exact Hres |].
  destruct (unconditional_broadcast ["apple"] (VDict catalog) s 2.5%float [apple] eq_refl)
    as (Hemit & _).
  destruct (Hemit catalog eq_refl (fun _ => Hres)) as (_ & H & _).
  - intros label [<- | []]. right. eexists. reflexivity.
  - exact H.
Defined.

(** Iterations that emit nothing. With two labels, an active iteration
    that reads a detection of category 2.0 raises [IndexError]; with a
    catalog that maps "apple" straight to its price, a stopped iteration
    with "apple" counted raises [AttributeError]. In both the list of
    messages stays empty and the loop has ended. *)
Lemma unconditional_broadcast_counterexample :
  let beyond := mkDetection (NFloat 2%float) 0.75%float [100; 100; 200; 150] in
  let counts := [("apple", mkIngredient 1 0%float)] in
  step ["apple"; "banana"] (VDict [("apple", VDict [("price", VFloat 0.5%float)])])
    (mkSystem (mkGlobals true counts) None []) (tick 5%float [beyond])
    = mkSystem (mkGlobals true counts) (Some IndexError) [] /\
  step ["apple"; "banana"] (VDict [("apple", VFloat 0.5%float)])
    (mkSystem (mkGlobals false counts) None []) (tick 5%float [])
    = mkSystem (mkGlobals false counts) (Some AttributeError) [].
Proof. split; reflexivity. Qed.

(** ** C9: the counts of a session *)



(** A detection while no session runs is not observed and not counted;
    after the start "apple" and "banana" are both. *)
Example example_observed_labels :
  let labels := ["apple"; "banana"] in
  let catalog := VDict [("apple", VDict [("price", VFloat 0.5%float)])] in
  let apple := mkDetection (NInt 0) 0.75%float [100; 100; 200; 150] in
  let banana := mkDetection (NInt 1) 0.5%float [10; 10; 20; 20] in
  let evs := [tick 0%float [banana]; start_detection; tick 1%float [apple];
              tick 2%float [banana; apple]] in
  run labels catalog initial_system evs
    = mkSystem (mkGlobals true [("apple", mkIngredient 1 1%float);
                                ("banana", mkIngredient 1 2%float)])
               None
               [[]; [Msg.mk "apple" 1 (VFloat 0.5%float)];
                [Msg.mk "apple" 1 (VFloat 0.5%float); Msg.mk "banana" 1 (VInt 0)]] /\
  observed labels evs = ["apple"; "banana"; "apple"].
Proof. split; reflexivity. Qed.
